(** * Gmail Label Manager: a shallow embedding of the sync and labelling code

    The development follows the layout of the repository:
    - [Js]        the JavaScript primitives the scripts rely on (truthiness,
                  [split], [includes], [startsWith], property enumeration);
    - [Config]    the constants of [config.js];
    - the hosting services (spreadsheet, Gmail) as an explicit world that is
      threaded through a small state-and-exception monad;
    - [logging.js], [labelling.js], [sync.js] and the two entry points of
      [triggers.js] / [ui.js] that call into them;
    - the script project (triggers, user properties, menus, dialogs) and
      the other functions of [ui.js] and [triggers.js], in [Project];
    - the properties of the specification, proved on those definitions. *)

From Stdlib Require Import Ascii String NArith.
From stdpp Require Import base strings list gmap pretty.

Open Scope string_scope.
Open Scope list_scope.
Open Scope nat_scope.

(** ** JavaScript primitives *)

Module Js.

(** The double quote character, used inside message templates. *)
Definition dq : string := String (Ascii.ascii_of_nat 34) EmptyString.

(** [if (s)] on a string: only the empty string is falsy. *)
Definition truthy (s : string) : bool := negb (String.eqb s "").

(** [if (n)] on a number. *)
Definition truthy_num (n : nat) : bool := negb (Nat.eqb n 0).

(** [s.includes(c)] for a one-character needle. *)
Fixpoint includes (c : ascii) (s : string) : bool :=
  match s with
  | EmptyString => false
  | String a rest => Ascii.eqb a c || includes c rest
  end.

(** [s.split(c)] for a one-character separator. *)
Fixpoint split (c : ascii) (s : string) : list string :=
  match s with
  | EmptyString => [EmptyString]
  | String a rest =>
      if Ascii.eqb a c then EmptyString :: split c rest
      else match split c rest with
           | [] => [String a EmptyString]
           | part :: parts => String a part :: parts
           end
  end.

(** [s.startsWith(p)]. *)
Fixpoint startsWith (p s : string) : bool :=
  match p, s with
  | EmptyString, _ => true
  | String a p', String b s' => Ascii.eqb a b && startsWith p' s'
  | String _ _, EmptyString => false
  end.

(** [threads.slice(i, j)]. *)
Definition slice {A} (i j : nat) (l : list A) : list A := take (j - i) (drop i l).

(** The values taken by [i] in [for (let i = 0; i < n; i += step)]. *)
Definition strides (step n : nat) : list nat :=
  (λ k, k * step) <$> seq 0 (Nat.div (n + (step - 1)) step).

(** *** Plain objects used as dictionaries with enumerable keys

    [sheetLabelMap] in [syncAllLabels] is written with [o[k] = v] and then
    enumerated with [for (const k in o)].  Assigning to an existing key
    keeps its position; a new key is appended.  Enumeration yields the
    keys that are canonical array indices first, in ascending numeric
    order, then the other keys in the order of their creation.  Keys
    inherited from [Object.prototype] are not modelled. *)

Definition obj (V : Type) : Type := list (string * V).

Fixpoint obj_get {V} (o : obj V) (k : string) : option V :=
  match o with
  | [] => None
  | (k', v) :: o' => if String.eqb k' k then Some v else obj_get o' k
  end.

Fixpoint obj_set {V} (o : obj V) (k : string) (v : V) : obj V :=
  match o with
  | [] => [(k, v)]
  | (k', v') :: o' =>
      if String.eqb k' k then (k', v) :: o' else (k', v') :: obj_set o' k v
  end.

Definition is_digit (a : ascii) : bool :=
  let n := Ascii.nat_of_ascii a in (48 <=? n) && (n <=? 57).

Fixpoint digits_value (acc : N) (s : string) : N :=
  match s with
  | EmptyString => acc
  | String a rest =>
      digits_value (acc * 10 + N.of_nat (Ascii.nat_of_ascii a - 48))%N rest
  end.

Fixpoint all_digits (s : string) : bool :=
  match s with
  | EmptyString => true
  | String a rest => is_digit a && all_digits rest
  end.

(** A key is an array index when it is the canonical decimal form of an
    integer below [2^32 - 1]. *)
Definition array_index (s : string) : option N :=
  match s with
  | EmptyString => None
  | String a rest =>
      if all_digits s
         && (negb (Ascii.eqb a "0") || String.eqb rest "")
         && (String.length s <=? 10)
         && (digits_value 0 s <? 4294967295)%N
      then Some (digits_value 0 s) else None
  end.

Fixpoint insert_index (x : N * string) (l : list (N * string)) : list (N * string) :=
  match l with
  | [] => [x]
  | y :: l' => if (x.1 <=? y.1)%N then x :: l else y :: insert_index x l'
  end.

Definition sort_indices (l : list (N * string)) : list (N * string) :=
  foldr insert_index [] l.

Definition index_keys (ks : list string) : list (N * string) :=
  omap (λ k, (λ n, (n, k)) <$> array_index k) ks.

Definition named_keys (ks : list string) : list string :=
  filter (λ k, array_index k = None) ks.

(** The keys visited by [for (const k in o)]. *)
Definition keys_in_order {V} (o : obj V) : list string :=
  (sort_indices (index_keys o.*1)).*2 ++ named_keys o.*1.

End Js.

(** ** config.js *)

Module Config.
Definition SHEET_NAME : string := "Labels".
Definition HEADER_ROW : nat := 1.
Definition LABEL_ID_COLUMN : nat := 1.
Definition NAME_COLUMN : nat := 2.
Definition DEBUG_MODE : bool := true.
End Config.

(** ** The hosting services

    The scripts run inside Google Apps Script and talk to two collaborators:
    the spreadsheet (local store) and the Gmail account (remote store).
    Neither is part of the repository. *)

Inductive LabelType := user | system.

Record RemoteLabel := {
  label_id : string;
  label_name : string;
  label_type : LabelType
}.

(** A mail thread and the names of the labels attached to it. *)
Record Thread := {
  thread_id : nat;
  thread_labels : list string
}.

(** The calls the scripts issue against the Gmail services. *)
Inductive RemoteCall :=
| ListLabels
| CreateLabel (name : string)
| GetUserLabelByName (name : string)
| Search (query : string)
| AddToThreads (name : string) (batch : list nat)
| RemoveFromThreads (name : string) (batch : list nat)
| DeleteLabel (name : string).

(** What [Gmail.Users.Labels.list] hands back when it does not raise. *)
Inductive ListResponse :=
| NoResponse
| ResponseWithoutLabels
| ResponseLabels (ls : list RemoteLabel).

Inductive ListPayload := PayloadLabels | PayloadNoLabels | PayloadNull.

(** The part of the host that the scripts never change: which remote calls
    raise (and with what message), whether the listing carries a payload,
    and the persisted auto-sync setting. *)
Record Host := {
  faults : RemoteCall → option string;
  list_payload : ListPayload;
  autoSyncEnabled : bool
}.

Inductive ConsoleEntry :=
| ConsoleLog (text : string)
| ConsoleError (text : string).

Record Toast := {
  toast_message : string;
  toast_title : option string;
  toast_timeout : option nat
}.

(** Modelled from the spec: the local store interface ("get/set cell by
    (row, column); append row; clear cell", with a header offset) and the
    remote store interface ("list labels (name, id, type); create label by
    name; delete label by id; get label handle by name; query items tagged
    with a label name; batch-apply/remove a label across a set of items").
    Cells hold strings, an absent cell is empty.  [calls] records the
    mutating remote calls in the order they are issued. *)
Record World := {
  sheet : gmap (nat * nat) string;
  labels : list RemoteLabel;
  threads : list Thread;
  next_id : nat;
  calls : list RemoteCall;
  console : list ConsoleEntry;
  toasts : list Toast
}.

Definition set_sheet (f : gmap (nat * nat) string → gmap (nat * nat) string) (w : World) : World :=
  {| sheet := f (sheet w); labels := labels w; threads := threads w;
     next_id := next_id w; calls := calls w; console := console w;
     toasts := toasts w |}.

Definition set_labels (f : list RemoteLabel → list RemoteLabel) (w : World) : World :=
  {| sheet := sheet w; labels := f (labels w); threads := threads w;
     next_id := next_id w; calls := calls w; console := console w;
     toasts := toasts w |}.

Definition set_threads (f : list Thread → list Thread) (w : World) : World :=
  {| sheet := sheet w; labels := labels w; threads := f (threads w);
     next_id := next_id w; calls := calls w; console := console w;
     toasts := toasts w |}.

Definition bump_next_id (w : World) : World :=
  {| sheet := sheet w; labels := labels w; threads := threads w;
     next_id := S (next_id w); calls := calls w; console := console w;
     toasts := toasts w |}.

Definition record_call (c : RemoteCall) (w : World) : World :=
  {| sheet := sheet w; labels := labels w; threads := threads w;
     next_id := next_id w; calls := calls w ++ [c]; console := console w;
     toasts := toasts w |}.

Definition record_console (e : ConsoleEntry) (w : World) : World :=
  {| sheet := sheet w; labels := labels w; threads := threads w;
     next_id := next_id w; calls := calls w; console := console w ++ [e];
     toasts := toasts w |}.

Definition record_toast (t : Toast) (w : World) : World :=
  {| sheet := sheet w; labels := labels w; threads := threads w;
     next_id := next_id w; calls := calls w; console := console w;
     toasts := toasts w ++ [t] |}.

(** ** Scripts: state passing with exceptions *)

Inductive Outcome (A : Type) :=
| Normal (a : A)
| Thrown (message : string).
Arguments Normal {A} a.
Arguments Thrown {A} message.

Definition Script (A : Type) : Type := Host → World → Outcome A * World.

Definition ret {A} (a : A) : Script A := λ _ w, (Normal a, w).

Definition throw {A} (message : string) : Script A := λ _ w, (Thrown message, w).

Definition bind {A B} (m : Script A) (k : A → Script B) : Script B :=
  λ h w, match m h w with
         | (Normal a, w') => k a h w'
         | (Thrown msg, w') => (Thrown msg, w')
         end.

(** [try { body } catch (error) { handler(error.message) }] *)
Definition try_catch {A} (body : Script A) (handler : string → Script A) : Script A :=
  λ h w, match body h w with
         | (Normal a, w') => (Normal a, w')
         | (Thrown msg, w') => handler msg h w'
         end.

Declare Scope script_scope.
Delimit Scope script_scope with script.
Bind Scope script_scope with Script.
Notation "'do' x <- m ; k" := (bind m (λ x, k))
  (at level 10, x name, m at level 100, k at level 200) : script_scope.
Notation "'run' m ; k" := (bind m (λ _, k))
  (at level 10, m at level 100, k at level 200) : script_scope.
Open Scope script_scope.

(** [for (const x of l) body(x)] *)
Fixpoint for_each {A} (l : list A) (body : A → Script unit) : Script unit :=
  match l with
  | [] => ret tt
  | x :: l' => run body x; for_each l' body
  end.

(** A loop that also updates local variables, gathered in [s]. *)
Fixpoint fold_each {A S} (l : list A) (s : S) (body : S → A → Script S) : Script S :=
  match l with
  | [] => ret s
  | x :: l' => do s' <- body s x; fold_each l' s' body
  end.

Definition when (b : bool) (m : Script unit) : Script unit :=
  if b then m else ret tt.

(** A service call that only changes the world. *)
Definition modify (f : World → World) : Script unit := λ _ w, (Normal tt, f w).

(** A service call that only reads the world. *)
Definition inspect {A} (f : World → A) : Script A := λ _ w, (Normal (f w), w).

(** ** The spreadsheet service *)

Module Sheet.

(** [sheet.getLastRow()]: the last row that has content, 0 on an empty sheet. *)
Definition lastRow (s : gmap (nat * nat) string) : nat :=
  max_list (omap (λ cell, if Js.truthy cell.2 then Some cell.1.1 else None)
                 (map_to_list s)).

Definition value (s : gmap (nat * nat) string) (row col : nat) : string :=
  default "" (s !! (row, col)).

Definition getLastRow : Script nat := inspect (λ w, lastRow (sheet w)).

(** [sheet.getRange(row, col).getValue()] *)
Definition getValue (row col : nat) : Script string :=
  inspect (λ w, value (sheet w) row col).

(** [sheet.getRange(row, col).setValue(v)] *)
Definition setValue (row col : nat) (v : string) : Script unit :=
  modify (set_sheet (insert (row, col) v)).

(** [sheet.getRange(row, col).clearContent()] *)
Definition clearContent (row col : nat) : Script unit :=
  modify (set_sheet (delete (row, col))).

(** [SpreadsheetApp.getActive().toast(message, title, timeout)] *)
Definition toast (message : string) (title : option string) (timeout : option nat) : Script unit :=
  modify (record_toast {| toast_message := message; toast_title := title;
                          toast_timeout := timeout |}).

End Sheet.

(** ** The Gmail services *)

Module Gmail.

Definition named (name : string) (l : RemoteLabel) : bool :=
  String.eqb (label_name l) name.

Definition is_user (l : RemoteLabel) : bool :=
  match label_type l with user => true | system => false end.

Definition has_label (name : string) (ls : list RemoteLabel) : bool :=
  existsb (named name) ls.

Definition has_user_label (name : string) (ls : list RemoteLabel) : bool :=
  existsb (λ l, named name l && is_user l) ls.

Definition fresh_id (n : nat) : string := "Label_" +:+ pretty n.

Definition tagged (name : string) (t : Thread) : bool :=
  existsb (String.eqb name) (thread_labels t).

Definition in_batch (batch : list nat) (t : Thread) : bool :=
  existsb (Nat.eqb (thread_id t)) batch.

Definition tag (name : string) (t : Thread) : Thread :=
  if tagged name t then t
  else {| thread_id := thread_id t; thread_labels := thread_labels t ++ [name] |}.

Definition untag (name : string) (t : Thread) : Thread :=
  {| thread_id := thread_id t;
     thread_labels := filter (λ n, n ≠ name) (thread_labels t) |}.

(** The ids of the threads that carry the label. *)
Definition threads_of (name : string) (ts : list Thread) : list nat :=
  thread_id <$> filter (λ t, tagged name t = true) ts.

(** Raise when the host says this call fails. *)
Definition attempt (c : RemoteCall) : Script unit :=
  λ h w, match faults h c with
         | Some msg => (Thrown msg, w)
         | None => (Normal tt, w)
         end.

(** A label handle is good for as long as its user label exists. *)
Definition through_handle (name : string) : Script unit :=
  λ _ w, if has_user_label name (labels w) then (Normal tt, w)
         else (Thrown "Label not found", w).

Definition add_label (name : string) (w : World) : World :=
  if has_label name (labels w) then w
  else bump_next_id
         (set_labels (λ ls, ls ++ [{| label_id := fresh_id (next_id w);
                                     label_name := name;
                                     label_type := user |}]) w).

Definition drop_label (name : string) (w : World) : World :=
  set_threads (fmap (untag name))
    (set_labels (filter (λ l, (named name l && is_user l) = false)) w).

Definition tag_batch (name : string) (batch : list nat) (w : World) : World :=
  set_threads (fmap (λ t, if in_batch batch t then tag name t else t)) w.

Definition untag_batch (name : string) (batch : list nat) (w : World) : World :=
  set_threads (fmap (λ t, if in_batch batch t then untag name t else t)) w.

(** [Gmail.Users.Labels.list('me')] of the advanced service. *)
Definition Users_Labels_list : Script ListResponse :=
  run attempt ListLabels;
  λ h w, (Normal match list_payload h with
                 | PayloadNull => NoResponse
                 | PayloadNoLabels => ResponseWithoutLabels
                 | PayloadLabels => ResponseLabels (labels w)
                 end, w).

(** [GmailApp.createLabel(name)]: a user label with a fresh id; the label
    is returned unchanged when one of that name exists. *)
Definition createLabel (name : string) : Script unit :=
  run modify (record_call (CreateLabel name));
  run attempt (CreateLabel name);
  modify (add_label name).

(** [GmailApp.getUserLabelByName(name)]: a handle on a user label, [null]
    when there is none.  The handle is the label's name. *)
Definition getUserLabelByName (name : string) : Script (option string) :=
  run attempt (GetUserLabelByName name);
  inspect (λ w, if has_user_label name (labels w) then Some name else None).

(** [GmailApp.search(`label:${name}`)]: handles on the threads that carry
    the label; a handle is the thread's id. *)
Definition search_label (name : string) : Script (list nat) :=
  run attempt (Search ("label:" +:+ name));
  inspect (λ w, threads_of name (threads w)).

(** [label.addToThreads(batch)] *)
Definition addToThreads (name : string) (batch : list nat) : Script unit :=
  run modify (record_call (AddToThreads name batch));
  run attempt (AddToThreads name batch);
  run through_handle name;
  modify (tag_batch name batch).

(** [label.removeFromThreads(batch)] *)
Definition removeFromThreads (name : string) (batch : list nat) : Script unit :=
  run modify (record_call (RemoveFromThreads name batch));
  run attempt (RemoveFromThreads name batch);
  run through_handle name;
  modify (untag_batch name batch).

(** [label.deleteLabel()]: the user label goes, and its tag with it. *)
Definition deleteLabel (name : string) : Script unit :=
  run modify (record_call (DeleteLabel name));
  run attempt (DeleteLabel name);
  run through_handle name;
  modify (drop_label name).

End Gmail.

Import Config.

(** ** logging.js *)

Definition logDebug (message : string) : Script unit :=
  when DEBUG_MODE (modify (record_console (ConsoleLog ("[DEBUG] " +:+ message)))).

Definition logError (message : string) : Script unit :=
  modify (record_console (ConsoleError ("[ERROR] " +:+ message))).

(** ** labelling.js *)

(** The loop [for (const label of response.labels) labelMap[label.name] = label.id]. *)
Definition build_label_map (ls : list RemoteLabel) : gmap string string :=
  foldl (λ m l, <[label_name l := label_id l]> m) ∅ ls.

(** [labelMap[name]] followed by a truthiness test: [Some id] when the
    entry exists and is truthy. *)
Definition lookup_id (labelMap : gmap string string) (name : string) : option string :=
  match labelMap !! name with
  | Some i => if Js.truthy i then Some i else None
  | None => None
  end.

(** [sheetLabelMap[name]] under a truthiness test. *)
Definition in_sheet_map (sheetLabelMap : Js.obj nat) (name : string) : bool :=
  match Js.obj_get sheetLabelMap name with
  | Some row => Js.truthy_num row
  | None => false
  end.

Definition quoted (s : string) : string := Js.dq +:+ s +:+ Js.dq.

Definition getLabelMap : Script (gmap string string) :=
  try_catch
    (do response <- Gmail.Users_Labels_list;
     match response with
     | NoResponse | ResponseWithoutLabels =>
         run logError "No labels found in the Gmail account";
         ret ∅
     | ResponseLabels ls =>
         let labelMap := build_label_map ls in
         run logDebug ("Found " +:+ pretty (size labelMap) +:+ " Gmail labels");
         ret labelMap
     end)
    (λ message,
       run logError ("Error getting label map: " +:+ message);
       ret ∅).

Definition getLabelId (labelName : string) : Script (option string) :=
  do labelMap <- getLabelMap;
  ret (lookup_id labelMap labelName).

(** The successive values of [parentPath] in the loop
    [for (let i = 0; i < parts.length - 1; i++)]. *)
Fixpoint parent_scan (parentPath : string) (parts : list string) : list string :=
  match parts with
  | [] => []
  | part :: parts' =>
      let parentPath' :=
        (if Js.truthy parentPath then parentPath +:+ "/" else parentPath) +:+ part in
      parentPath' :: parent_scan parentPath' parts'
  end.

Definition parentPaths (labelName : string) : list string :=
  let parts := Js.split "/" labelName in
  parent_scan "" (take (length parts - 1) parts).

(** The loop over the rows below the header that fills [sheetLabelMap]. *)
Definition read_sheet_labels (lastRow : nat) : Script (Js.obj nat) :=
  fold_each (seq (HEADER_ROW + 1) (lastRow - HEADER_ROW)) []
    (λ sheetLabelMap row,
       do currentLabel <- Sheet.getValue row NAME_COLUMN;
       ret (if Js.truthy currentLabel
            then Js.obj_set sheetLabelMap currentLabel row
            else sheetLabelMap)).

(** The body of the loop over the ancestors; [state] holds the local
    variables [sheetLabelMap] and [parentsAdded]. *)
Definition add_parent_label (lastRow : nat) (state : Js.obj nat * nat)
    (parentPath : string) : Script (Js.obj nat * nat) :=
  let sheetLabelMap := state.1 in
  let parentsAdded := state.2 in
  do parentId <- getLabelId parentPath;
  run match parentId with
      | Some _ => ret tt
      | None =>
          run Gmail.createLabel parentPath;
          run logDebug ("Created parent label " +:+ quoted parentPath +:+ " in Gmail");
          Sheet.toast ("New parent label " +:+ quoted parentPath +:+ " created in Gmail.")
            (Some "Info") (Some 3)
      end;
  if negb (in_sheet_map sheetLabelMap parentPath) then
    let newRow := lastRow + 1 + parentsAdded in
    run Sheet.setValue newRow NAME_COLUMN parentPath;
    do parentLabelId <- getLabelId parentPath;
    run match parentLabelId with
        | Some i => Sheet.setValue newRow LABEL_ID_COLUMN i
        | None => ret tt
        end;
    run logDebug ("Added parent label " +:+ quoted parentPath
                  +:+ " to spreadsheet at row " +:+ pretty newRow);
    ret (Js.obj_set sheetLabelMap parentPath newRow, parentsAdded + 1)
  else ret (sheetLabelMap, parentsAdded).

Definition addParentLabelsToSheet (labelName : string) : Script unit :=
  if negb (Js.includes "/" labelName) then ret tt
  else
    do lastRow <- Sheet.getLastRow;
    do sheetLabelMap <- read_sheet_labels lastRow;
    run fold_each (parentPaths labelName) (sheetLabelMap, 0) (add_parent_label lastRow);
    ret tt.

Definition createLabel (row : nat) (labelName : string) : Script unit :=
  run logDebug ("Creating label: " +:+ quoted labelName);
  try_catch
    (do existingId <- getLabelId labelName;
     match existingId with
     | Some existingId =>
         run logDebug ("Label " +:+ quoted labelName +:+ " already exists with ID: "
                       +:+ existingId);
         run Sheet.setValue row LABEL_ID_COLUMN existingId;
         Sheet.toast ("Label " +:+ quoted labelName +:+ " already exists in Gmail.")
           (Some "Info") (Some 3)
     | None =>
         run addParentLabelsToSheet labelName;
         run Gmail.createLabel labelName;
         do newLabelId <- getLabelId labelName;
         match newLabelId with
         | Some newLabelId =>
             run Sheet.setValue row LABEL_ID_COLUMN newLabelId;
             run logDebug ("Label " +:+ quoted labelName
                           +:+ " created successfully with ID: " +:+ newLabelId);
             Sheet.toast ("New label " +:+ quoted labelName +:+ " created in Gmail.")
               (Some "Success") (Some 3)
         | None =>
             run logError ("Failed to retrieve ID for newly created label "
                           +:+ quoted labelName);
             Sheet.toast "Created label but couldn't retrieve its ID"
               (Some "Warning") (Some 5)
         end
     end)
    (λ message,
       run logError ("Error creating label " +:+ quoted labelName +:+ ": " +:+ message);
       Sheet.toast ("Error creating label " +:+ quoted labelName +:+ ": " +:+ message)
         (Some "Error") (Some 10)).

Definition BATCH_SIZE : nat := 100.

(** [for (let i = 0; i < threads.length; i += BATCH_SIZE)] with
    [batch = threads.slice(i, i + BATCH_SIZE)]. *)
Definition batches (threadList : list nat) : list (list nat) :=
  (λ i, Js.slice i (i + BATCH_SIZE) threadList) <$> Js.strides BATCH_SIZE (length threadList).

Definition updateLabel (row : nat) (oldLabelName newLabelName : string) : Script unit :=
  run logDebug ("Updating label: " +:+ quoted oldLabelName +:+ " -> " +:+ quoted newLabelName);
  try_catch
    (do oldLabelId <- getLabelId oldLabelName;
     match oldLabelId with
     | None =>
         run logDebug ("Old label " +:+ quoted oldLabelName +:+ " not found, creating new label "
                       +:+ quoted newLabelName +:+ " instead");
         createLabel row newLabelName
     | Some _ =>
         run addParentLabelsToSheet newLabelName;
         do threadList <- Gmail.search_label oldLabelName;
         run logDebug ("Found " +:+ pretty (length threadList) +:+ " threads with label "
                       +:+ quoted oldLabelName);
         run Gmail.createLabel newLabelName;
         do newLabelId <- getLabelId newLabelName;
         match newLabelId with
         | None =>
             run logError ("Failed to get ID for new label " +:+ quoted newLabelName);
             Sheet.toast "Error updating label: couldn't create new label"
               (Some "Error") (Some 10)
         | Some newLabelId =>
             do oldLabel <- Gmail.getUserLabelByName oldLabelName;
             do newLabel <- Gmail.getUserLabelByName newLabelName;
             match oldLabel, newLabel with
             | Some oldLabel, Some newLabel =>
                 run for_each (batches threadList)
                   (λ batch, when (0 <? length batch) (Gmail.addToThreads newLabel batch));
                 run for_each (batches threadList)
                   (λ batch, when (0 <? length batch) (Gmail.removeFromThreads oldLabel batch));
                 run Gmail.deleteLabel oldLabel;
                 run Sheet.setValue row LABEL_ID_COLUMN newLabelId;
                 run logDebug ("Label updated successfully from " +:+ quoted oldLabelName
                               +:+ " to " +:+ quoted newLabelName);
                 Sheet.toast ("The label " +:+ quoted oldLabelName +:+ " has been renamed to "
                              +:+ quoted newLabelName +:+ " within Gmail.")
                   (Some "Success") (Some 5)
             | _, _ =>
                 logError ("Failed to get label objects for " +:+ quoted oldLabelName
                           +:+ " or " +:+ quoted newLabelName)
             end
         end
     end)
    (λ message,
       run logError ("Error updating label from " +:+ quoted oldLabelName +:+ " to "
                     +:+ quoted newLabelName +:+ ": " +:+ message);
       Sheet.toast ("Error updating label: " +:+ message) (Some "Error") (Some 10)).

Definition deleteLabel (row : nat) (labelName : string) : Script unit :=
  run logDebug ("Attempting to delete label: " +:+ quoted labelName);
  try_catch
    (do labelId <- getLabelId labelName;
     match labelId with
     | None =>
         run logDebug ("Label " +:+ quoted labelName +:+ " not found, nothing to delete");
         Sheet.clearContent row LABEL_ID_COLUMN
     | Some _ =>
         do label <- Gmail.getUserLabelByName labelName;
         match label with
         | None =>
             run logDebug ("Label object for " +:+ quoted labelName +:+ " not found");
             Sheet.clearContent row LABEL_ID_COLUMN
         | Some label =>
             do threadList <- Gmail.search_label labelName;
             if 0 <? length threadList then
               let message := "Cannot delete label " +:+ quoted labelName
                              +:+ " as it still has " +:+ pretty (length threadList)
                              +:+ " threads using it." in
               run logDebug message;
               run Sheet.toast message (Some "Warning") (Some 10);
               Sheet.setValue row NAME_COLUMN labelName
             else
               run Gmail.deleteLabel label;
               run Sheet.clearContent row LABEL_ID_COLUMN;
               run logDebug ("Label " +:+ quoted labelName +:+ " deleted successfully");
               Sheet.toast ("The label " +:+ quoted labelName
                            +:+ " has been deleted from Gmail.") (Some "Info") (Some 5)
         end
     end)
    (λ message,
       run logError ("Error deleting label " +:+ quoted labelName +:+ ": " +:+ message);
       Sheet.toast ("Error deleting label: " +:+ message) (Some "Error") (Some 10)).

Definition handleLabelChange (row : nat) (oldLabelName newLabelName : string) : Script unit :=
  run logDebug ("Processing label change: " +:+ quoted oldLabelName +:+ " -> "
                +:+ quoted newLabelName);
  if String.eqb oldLabelName "" && negb (String.eqb newLabelName "") then
    createLabel row newLabelName
  else if negb (String.eqb oldLabelName "") && String.eqb newLabelName "" then
    deleteLabel row oldLabelName
  else if negb (String.eqb oldLabelName "") && negb (String.eqb newLabelName "")
          && negb (String.eqb oldLabelName newLabelName) then
    updateLabel row oldLabelName newLabelName
  else ret tt.

(** ** sync.js *)

(** What a script function evaluates to for its caller: [syncAllLabels] has
    no [return] statement, while [showSyncResults] reads the two lists of a
    result object. *)
Inductive JsResult :=
| Undefined
| SyncResult (createdInGmail addedToSheet : option (list string)).

Definition RESERVED_NAMES : list string := ["INBOX"; "SENT"; "DRAFT"; "TRASH"; "SPAM"].

(** The test guarding [continue] in step 3. *)
Definition is_system_label (label : RemoteLabel) : bool :=
  negb (Gmail.is_user label)
  || Js.startsWith "CATEGORY_" (label_name label)
  || existsb (String.eqb (label_name label)) RESERVED_NAMES.

(** Step 2, for one name of the sheet. *)
Definition sync_sheet_label (labelMap : gmap string string) (sheetLabelMap : Js.obj nat)
    (labelName : string) : Script unit :=
  let row := default 0 (Js.obj_get sheetLabelMap labelName) in
  try_catch
    match lookup_id labelMap labelName with
    | None =>
        run when (Js.includes "/" labelName)
              (for_each (parentPaths labelName)
                 (λ parentPath,
                    match lookup_id labelMap parentPath with
                    | Some _ => ret tt
                    | None =>
                        run Gmail.createLabel parentPath;
                        logDebug ("Created parent label " +:+ quoted parentPath)
                    end));
        run Gmail.createLabel labelName;
        do newLabelId <- getLabelId labelName;
        match newLabelId with
        | Some newLabelId =>
            run Sheet.setValue row LABEL_ID_COLUMN newLabelId;
            logDebug ("Created label " +:+ quoted labelName +:+ " during sync with ID: "
                      +:+ newLabelId)
        | None => ret tt
        end
    | Some labelId =>
        run Sheet.setValue row LABEL_ID_COLUMN labelId;
        logDebug ("Updated ID for existing label " +:+ quoted labelName +:+ ": " +:+ labelId)
    end
    (λ message,
       logError ("Error syncing label " +:+ quoted labelName +:+ ": " +:+ message)).

(** Step 3, for one label of the listing; [lastRow] is the loop's counter. *)
Definition adopt_remote_label (sheetLabelMap : Js.obj nat) (lastRow : nat)
    (label : RemoteLabel) : Script nat :=
  if is_system_label label then ret lastRow
  else if in_sheet_map sheetLabelMap (label_name label) then ret lastRow
  else
    let lastRow := lastRow + 1 in
    run Sheet.setValue lastRow LABEL_ID_COLUMN (label_id label);
    run Sheet.setValue lastRow NAME_COLUMN (label_name label);
    run logDebug ("Added Gmail label " +:+ quoted (label_name label) +:+ " to spreadsheet");
    ret lastRow.

(** Step 2: the names of the sheet, in enumeration order. *)
Definition sync_sheet_labels (labelMap : gmap string string) (sheetLabelMap : Js.obj nat) :
    Script unit :=
  for_each (Js.keys_in_order sheetLabelMap) (sync_sheet_label labelMap sheetLabelMap).

(** Step 3: the labels of a fresh listing that the sheet does not hold. *)
Definition adopt_remote_labels (sheetLabelMap : Js.obj nat) (lastRow : nat) : Script unit :=
  do response <- Gmail.Users_Labels_list;
  match response with
  | ResponseLabels ls =>
      run fold_each ls lastRow (adopt_remote_label sheetLabelMap);
      ret tt
  | NoResponse | ResponseWithoutLabels => ret tt
  end.

Definition syncAllLabels : Script JsResult :=
  do lastRow <- Sheet.getLastRow;
  do labelMap <- getLabelMap;
  do sheetLabelMap <- read_sheet_labels lastRow;
  run sync_sheet_labels labelMap sheetLabelMap;
  run adopt_remote_labels sheetLabelMap lastRow;
  run Sheet.toast "All labels synced bidirectionally between Gmail and spreadsheet" None None;
  ret Undefined.

(** ** triggers.js *)

(** The fields of an edit event that [onEditTrigger] reads; [value] and
    [oldValue] are [undefined] when the cell is or was empty. *)
Record EditEvent := {
  event_sheet : string;
  event_row : nat;
  event_column : nat;
  event_value : option string;
  event_oldValue : option string
}.

(** [x || ""] *)
Definition or_empty (x : option string) : string :=
  match x with
  | Some v => if Js.truthy v then v else ""
  | None => ""
  end.

Definition onEditTrigger (e : EditEvent) : Script unit :=
  try_catch
    (if negb (String.eqb (event_sheet e) SHEET_NAME) then ret tt
     else
       let row := event_row e in
       let column := event_column e in
       if row <=? HEADER_ROW then ret tt
       else if column =? NAME_COLUMN then
         run logDebug ("Change detected in Name column at row " +:+ pretty row);
         let newLabelName := or_empty (event_value e) in
         let oldLabelName := or_empty (event_oldValue e) in
         handleLabelChange row oldLabelName newLabelName
       else ret tt)
    (λ message, logError ("Error in onEditTrigger: " +:+ message)).

Definition getAutoSyncEnabled : Script bool := λ h w, (Normal (autoSyncEnabled h), w).

(** [console.error] *)
Definition console_error (text : string) : Script unit :=
  modify (record_console (ConsoleError text)).

(** ** ui.js *)

Fixpoint join (sep : string) (l : list string) : string :=
  match l with
  | [] => ""
  | [x] => x
  | x :: l' => x +:+ sep +:+ join sep l'
  end.

(** [results.createdInGmail ? results.createdInGmail.length : 0] *)
Definition length_or_zero (l : option (list string)) : nat :=
  match l with Some l => length l | None => 0 end.

(** Reading a property of [undefined] raises a [TypeError]. *)
Definition showSyncResults (results : JsResult) : Script unit :=
  match results with
  | Undefined => throw "Cannot read properties of undefined (reading 'createdInGmail')"
  | SyncResult createdInGmail addedToSheet =>
      let totalChanges := length_or_zero createdInGmail + length_or_zero addedToSheet in
      if 0 <? totalChanges then
        run Sheet.toast ("Auto Sync complete: " +:+ pretty totalChanges
                         +:+ " label(s) synchronized") (Some "Auto Sync Complete") (Some 5);
        run match createdInGmail with
            | Some (x :: l) =>
                let createdLabels := join (Js.dq +:+ ", " +:+ Js.dq) (x :: l) in
                Sheet.toast ("Labels found in spreadsheet but not in Gmail: "
                             +:+ quoted createdLabels
                             +:+ ". These labels have been created in Gmail.")
                  (Some "Labels Created in Gmail") (Some 5)
            | _ => ret tt
            end;
        match addedToSheet with
        | Some (x :: l) =>
            let addedLabels := join (Js.dq +:+ ", " +:+ Js.dq) (x :: l) in
            Sheet.toast ("Labels found in Gmail but not in spreadsheet: "
                         +:+ quoted addedLabels
                         +:+ ". These labels have been added to spreadsheet.")
              (Some "Labels Added to Spreadsheet") (Some 5)
        | _ => ret tt
        end
      else
        Sheet.toast "Auto Sync complete: No changes needed" (Some "Auto Sync Complete") (Some 3)
  end.

(** The auto-sync part of [onOpenWithFullPermissions]; the menu it builds
    before that does not touch the two stores. *)
Definition onOpenWithFullPermissions : Script unit :=
  try_catch
    (do enabled <- getAutoSyncEnabled;
     run when enabled
           (try_catch
              (do results <- syncAllLabels;
               showSyncResults results)
              (λ message,
                 run logError ("Auto sync failed: " +:+ message);
                 Sheet.toast "Auto sync failed - check logs" (Some "Error") (Some 6)));
     logDebug "Full permissions menu created successfully")
    (λ message, console_error ("Error in onOpenWithFullPermissions: " +:+ message)).

(** * The script project

    [ui.js] and [triggers.js] also talk to the script project that hosts
    them: its installable triggers, the properties kept for the user, and
    the menu bar and dialogs of the spreadsheet.  None of these services
    is part of the repository. *)

Inductive EventType := ON_OPEN | ON_EDIT | ON_CHANGE | ON_FORM_SUBMIT | CLOCK.

#[global] Instance EventType_eq_dec : EqDecision EventType.
Proof. solve_decision. Defined.

Record Trigger := {
  trigger_uid : nat;
  trigger_handler : string;
  trigger_event : EventType
}.

Record MenuItem := {
  item_caption : string;
  item_function : string
}.

Inductive ButtonSet := BUTTONS_OK | BUTTONS_OK_CANCEL.

Inductive Button := OK | CANCEL | CLOSE.

Record Alert := {
  alert_title : string;
  alert_prompt : string;
  alert_buttons : ButtonSet
}.

(** The calls the scripts issue against the script project. *)
Inductive ProjectCall :=
| GetUi
| GetProjectTriggers
| DeleteTrigger (uid : nat)
| NewTrigger (handler : string) (event : EventType)
| AddToUi (menu : string)
| ShowAlert (title : string)
| HideColumns (column : nat)
| GetProperty (key : string)
| SetProperty (key value : string).

(** What the scripts never change: which calls raise, whether the listing
    carries a payload, and the button the user presses in a dialog. *)
Record Platform := {
  gmail_faults : RemoteCall → option string;
  gmail_payload : ListPayload;
  project_faults : ProjectCall → option string;
  answers : Alert → Button
}.

(** The two stores together with the script project: whether the
    spreadsheet has a sheet called [CONFIG.SHEET_NAME], the installable
    triggers, the user properties, the menus of the menu bar, the dialogs
    shown so far and the hidden columns. *)
Record Session := {
  stores : World;
  has_labels_sheet : bool;
  project_triggers : list Trigger;
  next_trigger : nat;
  user_properties : gmap string string;
  menus : gmap string (list MenuItem);
  alerts : list Alert;
  hidden_columns : list nat
}.

Definition set_stores (f : World → World) (s : Session) : Session :=
  {| stores := f (stores s); has_labels_sheet := has_labels_sheet s;
     project_triggers := project_triggers s; next_trigger := next_trigger s;
     user_properties := user_properties s; menus := menus s;
     alerts := alerts s; hidden_columns := hidden_columns s |}.

Definition set_triggers (f : list Trigger → list Trigger) (s : Session) : Session :=
  {| stores := stores s; has_labels_sheet := has_labels_sheet s;
     project_triggers := f (project_triggers s); next_trigger := next_trigger s;
     user_properties := user_properties s; menus := menus s;
     alerts := alerts s; hidden_columns := hidden_columns s |}.

Definition bump_next_trigger (s : Session) : Session :=
  {| stores := stores s; has_labels_sheet := has_labels_sheet s;
     project_triggers := project_triggers s; next_trigger := S (next_trigger s);
     user_properties := user_properties s; menus := menus s;
     alerts := alerts s; hidden_columns := hidden_columns s |}.

Definition set_properties (f : gmap string string → gmap string string) (s : Session) : Session :=
  {| stores := stores s; has_labels_sheet := has_labels_sheet s;
     project_triggers := project_triggers s; next_trigger := next_trigger s;
     user_properties := f (user_properties s); menus := menus s;
     alerts := alerts s; hidden_columns := hidden_columns s |}.

Definition set_menus (f : gmap string (list MenuItem) → gmap string (list MenuItem))
    (s : Session) : Session :=
  {| stores := stores s; has_labels_sheet := has_labels_sheet s;
     project_triggers := project_triggers s; next_trigger := next_trigger s;
     user_properties := user_properties s; menus := f (menus s);
     alerts := alerts s; hidden_columns := hidden_columns s |}.

Definition record_alert (a : Alert) (s : Session) : Session :=
  {| stores := stores s; has_labels_sheet := has_labels_sheet s;
     project_triggers := project_triggers s; next_trigger := next_trigger s;
     user_properties := user_properties s; menus := menus s;
     alerts := alerts s ++ [a]; hidden_columns := hidden_columns s |}.

Definition record_hidden (column : nat) (s : Session) : Session :=
  {| stores := stores s; has_labels_sheet := has_labels_sheet s;
     project_triggers := project_triggers s; next_trigger := next_trigger s;
     user_properties := user_properties s; menus := menus s;
     alerts := alerts s; hidden_columns := hidden_columns s ++ [column] |}.

(** ** Scripts over the script project *)

Definition App (A : Type) : Type := Platform → Session → Outcome A * Session.

Definition app_ret {A} (a : A) : App A := λ _ s, (Normal a, s).

Definition app_throw {A} (message : string) : App A := λ _ s, (Thrown message, s).

Definition app_bind {A B} (m : App A) (k : A → App B) : App B :=
  λ p s, match m p s with
         | (Normal a, s') => k a p s'
         | (Thrown msg, s') => (Thrown msg, s')
         end.

Definition app_try_catch {A} (body : App A) (handler : string → App A) : App A :=
  λ p s, match body p s with
         | (Normal a, s') => (Normal a, s')
         | (Thrown msg, s') => handler msg p s'
         end.

Declare Scope app_scope.
Delimit Scope app_scope with app.
Bind Scope app_scope with App.
Notation "'do' x <- m ; k" := (app_bind m (λ x, k))
  (at level 10, x name, m at level 100, k at level 200) : app_scope.
Notation "'run' m ; k" := (app_bind m (λ _, k))
  (at level 10, m at level 100, k at level 200) : app_scope.

Fixpoint app_for_each {A} (l : list A) (body : A → App unit) : App unit :=
  match l with
  | [] => app_ret tt
  | x :: l' => (run body x; app_for_each l' body)%app
  end.

Fixpoint app_fold_each {A S} (l : list A) (s : S) (body : S → A → App S) : App S :=
  match l with
  | [] => app_ret s
  | x :: l' => (do s' <- body s x; app_fold_each l' s' body)%app
  end.

Definition app_when (b : bool) (m : App unit) : App unit :=
  if b then m else app_ret tt.

Definition app_modify (f : Session → Session) : App unit := λ _ s, (Normal tt, f s).

Definition app_inspect {A} (f : Session → A) : App A := λ _ s, (Normal (f s), s).

(** The persisted setting is the user property [autoSyncEnabled]: it counts
    as set when the stored text is exactly [true]. *)
Definition stored_flag (s : Session) : bool :=
  bool_decide (user_properties s !! "autoSyncEnabled" = Some "true").

(** The host that a script over the two stores sees. *)
Definition host_of (p : Platform) (s : Session) : Host :=
  {| faults := gmail_faults p; list_payload := gmail_payload p;
     autoSyncEnabled := stored_flag s |}.

(** A script over the two stores, run within the project. *)
Definition lift {A} (m : Script A) : App A :=
  λ p s, match m (host_of p s) (stores s) with
         | (o, w) => (o, set_stores (λ _, w) s)
         end.

(** A call that the project may refuse. *)
Definition project_call (c : ProjectCall) : App unit :=
  λ p s, match project_faults p c with
         | Some msg => (Thrown msg, s)
         | None => (Normal tt, s)
         end.

Module ScriptApp.
Local Open Scope app_scope.

Definition getProjectTriggers : App (list Trigger) :=
  run project_call GetProjectTriggers;
  app_inspect project_triggers.

Definition deleteTrigger (t : Trigger) : App unit :=
  run project_call (DeleteTrigger (trigger_uid t));
  app_modify (set_triggers (filter (λ t', trigger_uid t' ≠ trigger_uid t))).

(** [ScriptApp.newTrigger(handler).forSpreadsheet(...).onOpen().create()],
    or [.onEdit()] *)
Definition newTrigger (handler : string) (event : EventType) : App unit :=
  run project_call (NewTrigger handler event);
  app_modify (λ s, bump_next_trigger
    (set_triggers (λ l, l ++ [{| trigger_uid := next_trigger s;
                                 trigger_handler := handler;
                                 trigger_event := event |}]) s)).

End ScriptApp.

Module PropertiesService.
Local Open Scope app_scope.

(** [getUserProperties().getProperty(key)], [null] for a missing key *)
Definition getProperty (key : string) : App (option string) :=
  run project_call (GetProperty key);
  app_inspect (λ s, user_properties s !! key).

Definition setProperty (key value : string) : App unit :=
  run project_call (SetProperty key value);
  app_modify (set_properties (insert key value)).

End PropertiesService.

Module SpreadsheetApp.
Local Open Scope app_scope.

(** [SpreadsheetApp.getUi()] *)
Definition getUi : App unit := project_call GetUi.

(** [ui.createMenu(name).addItem(...)...addToUi()]; a menu of the same
    name is replaced. *)
Definition addToUi (name : string) (items : list MenuItem) : App unit :=
  run project_call (AddToUi name);
  app_modify (set_menus (insert name items)).

(** [ui.alert(title, prompt, buttons)] *)
Definition alert (title prompt : string) (buttons : ButtonSet) : App Button :=
  let a := {| alert_title := title; alert_prompt := prompt; alert_buttons := buttons |} in
  run project_call (ShowAlert title);
  run app_modify (record_alert a);
  λ p s, (Normal (answers p a), s).

(** [SpreadsheetApp.getActiveSpreadsheet().getSheetByName(name)]: whether
    the result is a sheet rather than [null]. *)
Definition getSheetByName (name : string) : App bool :=
  app_inspect (λ s, String.eqb name SHEET_NAME && has_labels_sheet s).

(** [sheet.hideColumns(column)] *)
Definition hideColumns (column : nat) : App unit :=
  run project_call (HideColumns column);
  app_modify (record_hidden column).

End SpreadsheetApp.

(** [console.log] *)
Definition console_log (text : string) : App unit :=
  lift (modify (record_console (ConsoleLog text))).

(** A function that starts with
    [const sheet = ...getSheetByName(CONFIG.SHEET_NAME)] and calls a method
    of [sheet] next: without such a sheet that call is made on [null]. *)
Definition on_labels_sheet {A} (method : string) (m : Script A) : App A :=
  (do sheet <- SpreadsheetApp.getSheetByName SHEET_NAME;
   if sheet then lift m
   else app_throw ("Cannot read properties of null (reading '" +:+ method +:+ "')"))%app.

(** ** ui.js and triggers.js over the script project *)

(** The line feed of a string literal. *)
Definition newline : string := String (Ascii.ascii_of_nat 10) EmptyString.

Module Project.
Local Open Scope app_scope.

Definition getAutoSyncEnabled : App bool :=
  do value <- PropertiesService.getProperty "autoSyncEnabled";
  app_ret (bool_decide (value = Some "true")).

Definition setupLabelIdColumn : App unit :=
  app_try_catch
    (do sheet <- SpreadsheetApp.getSheetByName SHEET_NAME;
     if negb sheet then app_ret tt
     else
       run lift (Sheet.setValue HEADER_ROW LABEL_ID_COLUMN "Label ID");
       app_try_catch
         (run SpreadsheetApp.hideColumns LABEL_ID_COLUMN;
          lift (logDebug "Label ID column hidden successfully"))
         (λ message, lift (logError ("Failed to hide Label ID column: " +:+ message))))
    (λ message, lift (logError ("Error in setupLabelIdColumn: " +:+ message))).

Definition onOpen : App unit :=
  run SpreadsheetApp.getUi;
  app_try_catch
    (run setupLabelIdColumn;
     SpreadsheetApp.addToUi "Gmail Labels"
       [{| item_caption := "Click to Enable"; item_function := "promptForPermissions" |}])
    (λ message, lift (console_error ("Error in onOpen: " +:+ message))).

(** The test of the loop that looks for the edit trigger. *)
Definition is_edit_trigger (t : Trigger) : bool :=
  match trigger_event t with
  | ON_EDIT => String.eqb (trigger_handler t) "onEditTrigger"
  | _ => false
  end.

Definition on_off (b : bool) : string := if b then "[ON] " else "[OFF] ".

Definition onOpenWithFullPermissions : App unit :=
  run SpreadsheetApp.getUi;
  app_try_catch
    (do triggers <- ScriptApp.getProjectTriggers;
     let editTriggerEnabled := existsb is_edit_trigger triggers in
     do autoSync <- getAutoSyncEnabled;
     run SpreadsheetApp.addToUi "Gmail Labels"
       [{| item_caption := on_off editTriggerEnabled +:+ "Trigger On Spreadsheet Change";
           item_function := "toggleEditTrigger" |};
        {| item_caption := on_off autoSync +:+ "Auto Sync On Startup";
           item_function := "toggleAutoSync" |};
        {| item_caption := "Sync All Labels"; item_function := "syncAllLabels" |}];
     do enabled <- getAutoSyncEnabled;
     run app_when enabled
           (app_try_catch
              (do results <- on_labels_sheet "getLastRow" syncAllLabels;
               lift (showSyncResults results))
              (λ message,
                 run lift (logError ("Auto sync failed: " +:+ message));
                 lift (Sheet.toast "Auto sync failed - check logs" (Some "Error") (Some 6))));
     lift (logDebug "Full permissions menu created successfully"))
    (λ message, lift (console_error ("Error in onOpenWithFullPermissions: " +:+ message))).

Definition createInstallableTrigger : App bool :=
  app_try_catch
    (do triggers <- ScriptApp.getProjectTriggers;
     run app_for_each triggers (λ trigger,
           app_when (String.eqb (trigger_handler trigger) "onOpenWithFullPermissions")
                    (ScriptApp.deleteTrigger trigger));
     run ScriptApp.newTrigger "onOpenWithFullPermissions" ON_OPEN;
     run console_log "Installable trigger created successfully";
     app_ret true)
    (λ message,
       run lift (console_error ("Error creating installable trigger: " +:+ message));
       app_throw message).

Definition promptForPermissions : App unit :=
  run SpreadsheetApp.getUi;
  do response <- SpreadsheetApp.alert "Additional Permissions Required"
                   ("To use all features of this script, you need to grant additional permissions."
                    +:+ newline +:+ newline
                    +:+ "Would you like to enable these permissions now?")
                   BUTTONS_OK_CANCEL;
  match response with
  | OK =>
      app_try_catch
        (run createInstallableTrigger;
         run SpreadsheetApp.alert "Success"
               "Permissions have been requested. Please refresh the spreadsheet to see all options."
               BUTTONS_OK;
         app_try_catch onOpenWithFullPermissions
           (λ message,
              console_log ("Could not run full permissions function yet: " +:+ message)))
        (λ message,
           run SpreadsheetApp.alert "Error"
                 ("Unable to enable permissions: " +:+ message +:+ newline +:+ newline
                  +:+ "Please try refreshing the page and trying again.")
                 BUTTONS_OK;
           app_ret tt)
  | _ => app_ret tt
  end.

Definition is_on_edit (t : Trigger) : bool :=
  match trigger_event t with ON_EDIT => true | _ => false end.

Definition toggleEditTrigger : App unit :=
  do triggers <- ScriptApp.getProjectTriggers;
  do triggerExists <- app_fold_each triggers false (λ triggerExists trigger,
        if is_on_edit trigger then
          run ScriptApp.deleteTrigger trigger;
          app_ret true
        else app_ret triggerExists);
  run (if negb triggerExists then
         run ScriptApp.newTrigger "onEditTrigger" ON_EDIT;
         lift (Sheet.toast "Row change trigger enabled" None None)
       else lift (Sheet.toast "Row change trigger disabled" None None));
  onOpenWithFullPermissions.

Definition toggleAutoSync : App unit :=
  do current <- getAutoSyncEnabled;
  let enabled := negb current in
  run PropertiesService.setProperty "autoSyncEnabled" (if enabled then "true" else "false");
  run lift (Sheet.toast ("Auto Sync " +:+ (if enabled then "ENABLED" else "DISABLED")) None None);
  onOpenWithFullPermissions.

End Project.

(** * Vocabulary of the specification *)

(** ** The listing as the scripts see it *)

Definition listing_ok (h : Host) : bool :=
  match faults h ListLabels, list_payload h with
  | None, PayloadLabels => true
  | _, _ => false
  end.

(** The map [getLabelMap] hands to its caller. *)
Definition label_map_of (h : Host) (w : World) : gmap string string :=
  if listing_ok h then build_label_map (labels w) else ∅.

(** The line [getLabelMap] writes to the console. *)
Definition getLabelMap_entry (h : Host) (w : World) : ConsoleEntry :=
  match faults h ListLabels with
  | Some msg => ConsoleError ("[ERROR] Error getting label map: " +:+ msg)
  | None =>
      match list_payload h with
      | PayloadLabels =>
          ConsoleLog ("[DEBUG] Found " +:+ pretty (size (build_label_map (labels w)))
                      +:+ " Gmail labels")
      | _ => ConsoleError "[ERROR] No labels found in the Gmail account"
      end
  end.

(** A host on which no remote call raises and the listing carries labels. *)
Definition healthy (h : Host) : Prop :=
  (∀ c, faults h c = None) ∧ list_payload h = PayloadLabels.

(** ** Sample hosts and worlds *)

Definition nominal_host : Host :=
  {| faults := λ _, None; list_payload := PayloadLabels; autoSyncEnabled := true |}.


Definition world_of (cells : list (nat * nat * string)) (ls : list RemoteLabel)
    (ts : list Thread) : World :=
  {| sheet := list_to_map cells; labels := ls; threads := ts; next_id := 1;
     calls := []; console := []; toasts := [] |}.

Definition header : nat * nat * string := ((HEADER_ROW, LABEL_ID_COLUMN), "Label ID").

(** Row 2 held the label Old, which is on three threads; its name cell has
    just been emptied. *)
Definition world_old_in_use : World :=
  world_of [header; ((2, LABEL_ID_COLUMN), "Label_7")]
    [{| label_id := "INBOX"; label_name := "INBOX"; label_type := system |};
     {| label_id := "Label_7"; label_name := "Old"; label_type := user |}]
    [{| thread_id := 1; thread_labels := ["INBOX"; "Old"] |};
     {| thread_id := 2; thread_labels := ["Old"] |};
     {| thread_id := 3; thread_labels := ["INBOX"] |};
     {| thread_id := 4; thread_labels := ["Old"] |}].


(** A host on which the account can be read but labels can neither be
    created nor deleted. *)
Definition readonly_host : Host :=
  {| faults := λ c, match c with
                    | CreateLabel _ | DeleteLabel _ => Some "Permission denied"
                    | _ => None
                    end;
     list_payload := PayloadLabels; autoSyncEnabled := true |}.


(** Row 2 held the system label INBOX, which is on one thread; its name cell
    has just been changed to Foo. *)
Definition world_inbox_renamed : World :=
  world_of [header; ((2, LABEL_ID_COLUMN), "INBOX"); ((2, NAME_COLUMN), "Foo")]
    [{| label_id := "INBOX"; label_name := "INBOX"; label_type := system |}]
    [{| thread_id := 1; thread_labels := ["INBOX"] |}].

(** The account has the system label INBOX only; the name cell of row 2 has
    just been filled with INBOX/Receipts. *)
Definition world_inbox_child : World :=
  world_of [header; ((2, NAME_COLUMN), "INBOX/Receipts")]
    [{| label_id := "INBOX"; label_name := "INBOX"; label_type := system |}]
    [].

(** Row 2 holds the nested name A/B; the account has no label. *)
Definition world_nested : World :=
  world_of [header; ((2, NAME_COLUMN), "A/B")] [] [].

(** Rows 2 and 3 hold the names A/B and Work; the account has the system
    label INBOX and the user labels Work and Personal. *)
Definition world_mixed : World :=
  world_of [header; ((2, NAME_COLUMN), "A/B"); ((3, NAME_COLUMN), "Work")]
    [{| label_id := "INBOX"; label_name := "INBOX"; label_type := system |};
     {| label_id := "Label_20"; label_name := "Work"; label_type := user |};
     {| label_id := "Label_21"; label_name := "Personal"; label_type := user |}]
    [{| thread_id := 1; thread_labels := ["INBOX"; "Work"] |}].

(** Row 2 has just been filled with A/B; the account has the label A/B but
    not its ancestor A. *)
Definition world_orphan : World :=
  world_of [header; ((2, NAME_COLUMN), "A/B")]
    [{| label_id := "Label_5"; label_name := "A/B"; label_type := user |}]
    [].

(** Row 2 held the label A, which is on no thread; its name cell has just
    been changed to A/B. *)
Definition world_into_child : World :=
  world_of [header; ((2, LABEL_ID_COLUMN), "Label_1"); ((2, NAME_COLUMN), "A/B")]
    [{| label_id := "Label_1"; label_name := "A"; label_type := user |}]
    [].


(** ** Relations that every step of a script maintains *)

Definition preserves (R : relation World) {A} (m : Script A) : Prop :=
  ∀ h w, R w (m h w).2.

(** Relations that do not look at the id column, the console or the toasts. *)
Class Quiet (R : relation World) : Prop := {
  quiet_preorder :: PreOrder R;
  quiet_set_id row v w : R w (set_sheet (insert (row, LABEL_ID_COLUMN) v) w);
  quiet_clear_id row w : R w (set_sheet (delete (row, LABEL_ID_COLUMN)) w);
  quiet_console e w : R w (record_console e w);
  quiet_toast t w : R w (record_toast t w)
}.

(** Relations that do not look at the name column either. *)
Class AdmitsNames (R : relation World) : Prop := {
  admits_set_name row v w : R w (set_sheet (insert (row, NAME_COLUMN) v) w)
}.

(** Relations that admit the creation of user labels. *)
Class AdmitsCreate (R : relation World) : Prop := {
  admits_create_call name w : R w (record_call (CreateLabel name) w);
  admits_add_label name w : R w (Gmail.add_label name w)
}.

(** Relations that admit what is done through the handle of a user label. *)
Class AdmitsRetag (R : relation World) : Prop := {
  admits_add_call name batch w : R w (record_call (AddToThreads name batch) w);
  admits_remove_call name batch w : R w (record_call (RemoveFromThreads name batch) w);
  admits_delete_call name w : R w (record_call (DeleteLabel name) w);
  admits_tag name batch w :
    Gmail.has_user_label name (labels w) = true → R w (Gmail.tag_batch name batch w);
  admits_untag name batch w :
    Gmail.has_user_label name (labels w) = true → R w (Gmail.untag_batch name batch w);
  admits_drop name w :
    Gmail.has_user_label name (labels w) = true → R w (Gmail.drop_label name w)
}.

(** ** What a script can evaluate to *)

(** Every normal result of [m] satisfies [P]. *)
Definition yields_only {A} (P : A → Prop) (m : Script A) : Prop :=
  ∀ h w, match (m h w).1 with Normal a => P a | Thrown _ => True end.

(** ** Well-formed remote stores *)

(** Gmail never hands out an empty label id. *)
Definition ids_nonempty (ls : list RemoteLabel) : Prop :=
  forallb (λ l, Js.truthy (label_id l)) ls = true.


(** The names of the local store: the non-empty name cells below the header. *)
Definition local_name (w : World) (name : string) : Prop :=
  name ≠ "" ∧ ∃ row, HEADER_ROW < row ∧ Sheet.value (sheet w) row NAME_COLUMN = name.

(** ** The name index of the sheet *)

(** The value of [sheetLabelMap] once the rows have been read. *)
Definition index_rows (s : gmap (nat * nat) string) (rows : list nat) (o : Js.obj nat) : Js.obj nat :=
  foldl (λ o row, if Js.truthy (Sheet.value s row NAME_COLUMN)
                  then Js.obj_set o (Sheet.value s row NAME_COLUMN) row else o) o rows.

Definition sheet_label_map (s : gmap (nat * nat) string) (lastRow : nat) : Js.obj nat :=
  index_rows s (seq (HEADER_ROW + 1) (lastRow - HEADER_ROW)) [].

(** ** Ancestors that have to be created *)

(** The names of [names], in order and once each, that [present] lacks. *)
Fixpoint missing_names (present names : list string) : list string :=
  match names with
  | [] => []
  | n :: names' =>
      if bool_decide (n ∈ present) then missing_names present names'
      else n :: missing_names (present ++ [n]) names'
  end.


(** ** Re-tagging threads *)


(** ** The trace of remote calls *)

Definition is_create (c : RemoteCall) : bool :=
  match c with CreateLabel _ => true | _ => false end.



(** From [w] to [w'] labels were at most added, and nothing else happened
    remotely. *)
Definition only_creates (w w' : World) : Prop :=
  (∃ L, labels w' = labels w ++ L)
  ∧ threads w' = threads w
  ∧ ∃ cs, calls w' = calls w ++ cs ∧ Forall (λ c, is_create c = true) cs.

(** From [w] to [w'] the trace of remote calls was only extended. *)
Definition calls_grow (w w' : World) : Prop := ∃ cs, calls w' = calls w ++ cs.


(** ** The two stores across an operation *)

(** The name column is the same in [w] and [w']. *)
Definition same_names (w w' : World) : Prop :=
  ∀ row, Sheet.value (sheet w') row NAME_COLUMN = Sheet.value (sheet w) row NAME_COLUMN.

(** [name] is the name of system labels only. *)
Definition system_only (name : string) (ls : list RemoteLabel) : Prop :=
  Gmail.has_label name ls = true ∧ Gmail.has_user_label name ls = false.

(** From [w] to [w'] every label of type system was kept, every label that
    was added has type user, and the threads that carry a name of system
    labels only are the same. *)
Definition spares_system (w w' : World) : Prop :=
  (∀ l, l ∈ labels w → label_type l = system → l ∈ labels w')
  ∧ (∀ l, l ∈ labels w' → l ∈ labels w ∨ label_type l = user)
  ∧ (∀ name, system_only name (labels w) →
       system_only name (labels w')
       ∧ Gmail.threads_of name (threads w') = Gmail.threads_of name (threads w)).

(** The labels of a listing that step 3 of the reconciliation appends. *)
Definition adopted (sheetLabelMap : Js.obj nat) (ls : list RemoteLabel) : list RemoteLabel :=
  filter (λ l, is_system_label l = false ∧ in_sheet_map sheetLabelMap (label_name l) = false) ls.

(** The sheet after the labels [ls] were appended below row [lastRow]. *)
Fixpoint append_rows (s : gmap (nat * nat) string) (lastRow : nat) (ls : list RemoteLabel) :
    gmap (nat * nat) string :=
  match ls with
  | [] => s
  | l :: ls' =>
      append_rows (<[(lastRow + 1, NAME_COLUMN) := label_name l]>
                     (<[(lastRow + 1, LABEL_ID_COLUMN) := label_id l]> s))
        (lastRow + 1) ls'
  end.

(** ** What step 2 of the reconciliation creates *)


(** The host lets [GmailApp.createLabel] go through for this name. *)
Definition accepts (h : Host) (name : string) : bool :=
  match faults h (CreateLabel name) with Some _ => false | None => true end.

(** The world after [GmailApp.createLabel] was called on the names in turn,
    up to and including the first call that raises. *)
Fixpoint create_until (h : Host) (names : list string) (w : World) : World :=
  match names with
  | [] => w
  | n :: names' =>
      if accepts h n
      then create_until h names' (Gmail.add_label n (record_call (CreateLabel n) w))
      else record_call (CreateLabel n) w
  end.




(** Two worlds agree on what the creation of labels reads and writes. *)
Definition same_remote (w1 w2 : World) : Prop :=
  labels w1 = labels w2 ∧ calls w1 = calls w2 ∧ next_id w1 = next_id w2.





(** ** Ancestor paths *)


(** The number of separators in a name. *)
Fixpoint separators (name : string) : nat :=
  match name with
  | EmptyString => 0
  | String a rest => (if Ascii.eqb a "/" then 1 else 0) + separators rest
  end.


(** The array [parts] without its last element: what the loop
    [for (let i = 0; i < parts.length - 1; i++)] visits. *)
Definition leading_parts (name : string) : list string :=
  take (length (Js.split "/" name) - 1) (Js.split "/" name).

(** No toast was shown from [w] to [w']. *)
Definition keeps_toasts (w w' : World) : Prop := toasts w' = toasts w.

(** ** The script project across an operation *)

(** No call to the script project raises. *)
Definition project_ok (p : Platform) : Prop := ∀ c, project_faults p c = None.

(** Triggers carry distinct identifiers, all of them already handed out. *)
Definition triggers_wf (s : Session) : Prop :=
  NoDup (trigger_uid <$> project_triggers s)
  ∧ ∀ t, t ∈ project_triggers s → trigger_uid t < next_trigger s.

(** Everything but the two stores is the same. *)
Definition same_project (s s' : Session) : Prop :=
  has_labels_sheet s' = has_labels_sheet s
  ∧ project_triggers s' = project_triggers s
  ∧ next_trigger s' = next_trigger s
  ∧ user_properties s' = user_properties s
  ∧ menus s' = menus s
  ∧ alerts s' = alerts s
  ∧ hidden_columns s' = hidden_columns s.

(** The menu that [onOpenWithFullPermissions] builds in a session. *)
Definition full_menu (s : Session) : list MenuItem :=
  [{| item_caption := Project.on_off (existsb Project.is_edit_trigger (project_triggers s))
                      +:+ "Trigger On Spreadsheet Change";
      item_function := "toggleEditTrigger" |};
   {| item_caption := Project.on_off (stored_flag s) +:+ "Auto Sync On Startup";
      item_function := "toggleAutoSync" |};
   {| item_caption := "Sync All Labels"; item_function := "syncAllLabels" |}].

(** The triggers left once each trigger of [doomed] has been deleted, one
    [ScriptApp.deleteTrigger] after the other. *)
Definition delete_triggers (doomed ts : list Trigger) : list Trigger :=
  foldl (λ ts t, filter (λ t', trigger_uid t' ≠ trigger_uid t) ts) ts doomed.

(** ** Sample platforms and sessions *)

(** No call is refused and the user presses OK. *)
Definition nominal_platform : Platform :=
  {| gmail_faults := λ _, None; gmail_payload := PayloadLabels;
     project_faults := λ _, None; answers := λ _, OK |}.

(** The script has not been authorised: the project refuses to touch its
    triggers. *)
Definition unauthorised_platform : Platform :=
  {| gmail_faults := λ _, None; gmail_payload := PayloadLabels;
     project_faults := λ c, match c with
                            | GetProjectTriggers | DeleteTrigger _ | NewTrigger _ _ =>
                                Some "Authorisation is required to perform that action."
                            | _ => None
                            end;
     answers := λ _, OK |}.

(** The project lists and deletes triggers but refuses to create one. *)
Definition quota_platform : Platform :=
  {| gmail_faults := λ _, None; gmail_payload := PayloadLabels;
     project_faults := λ c, match c with
                            | NewTrigger _ _ => Some "This script has too many triggers."
                            | _ => None
                            end;
     answers := λ _, OK |}.


Definition session_of (w : World) (sheet_present : bool) (ts : list Trigger)
    (properties : list (string * string)) : Session :=
  {| stores := w; has_labels_sheet := sheet_present; project_triggers := ts;
     next_trigger := S (max_list (trigger_uid <$> ts));
     user_properties := list_to_map properties; menus := ∅; alerts := [];
     hidden_columns := [] |}.

(** An open trigger left by an earlier authorisation, an edit trigger of
    the script and an edit trigger of some other handler. *)
Definition sample_triggers : list Trigger :=
  [{| trigger_uid := 1; trigger_handler := "onOpenWithFullPermissions"; trigger_event := ON_OPEN |};
   {| trigger_uid := 2; trigger_handler := "onEditTrigger"; trigger_event := ON_EDIT |};
   {| trigger_uid := 3; trigger_handler := "auditEdits"; trigger_event := ON_EDIT |}].

(** The first dialog of [promptForPermissions]. *)
Definition permission_prompt : Alert :=
  {| alert_title := "Additional Permissions Required";
     alert_prompt := "To use all features of this script, you need to grant additional permissions."
                     +:+ newline +:+ newline
                     +:+ "Would you like to enable these permissions now?";
     alert_buttons := BUTTONS_OK_CANCEL |}.

(** The menu that [onOpen] builds. *)
Definition short_menu : list MenuItem :=
  [{| item_caption := "Click to Enable"; item_function := "promptForPermissions" |}].

(** * Reasoning about scripts *)


Lemma bind_thrown {A B} (m : Script A) (k : A → Script B) h w msg w' :
  m h w = (Thrown msg, w') → bind m k h w = (Thrown msg, w').
Proof. unfold bind. by intros ->. Qed.

Lemma try_catch_normal {A} (m : Script A) hd h w a w' :
  m h w = (Normal a, w') → try_catch m hd h w = (Normal a, w').
Proof. unfold try_catch. by intros ->. Qed.

Lemma try_catch_thrown {A} (m : Script A) hd h w msg w' :
  m h w = (Thrown msg, w') → try_catch m hd h w = hd msg h w'.
Proof. unfold try_catch. by intros ->. Qed.

Lemma for_each_app {A} (l1 l2 : list A) body h w :
  for_each (l1 ++ l2) body h w = (run for_each l1 body; for_each l2 body) h w.
Proof.
  revert w. induction l1 as [|x l1 IH]; intros w; simpl.
  - done.
  - unfold bind in *. destruct (body x h w) as [[[]|msg] w1]; [|done].
    apply IH.
Qed.

(** ** Relations that every step of a script maintains *)

Section preserves.
Context (R : relation World) `{!PreOrder R}.

Lemma preserves_ret {A} (a : A) : preserves R (ret a).
Proof. intros h w. simpl. reflexivity. Qed.

Lemma preserves_throw {A} msg : preserves R (@throw A msg).
Proof. intros h w. simpl. reflexivity. Qed.

Lemma preserves_inspect {A} (f : World → A) : preserves R (inspect f).
Proof. intros h w. simpl. reflexivity. Qed.

Lemma preserves_modify f : (∀ w, R w (f w)) → preserves R (modify f).
Proof. intros Hf h w. apply Hf. Qed.

Lemma preserves_attempt c : preserves R (Gmail.attempt c).
Proof. intros h w. unfold Gmail.attempt. destruct (faults h c); simpl; reflexivity. Qed.

Lemma preserves_getAutoSyncEnabled : preserves R getAutoSyncEnabled.
Proof. intros h w. simpl. reflexivity. Qed.

Lemma preserves_bind {A B} (m : Script A) (k : A → Script B) :
  preserves R m → (∀ a, preserves R (k a)) → preserves R (bind m k).
Proof.
  intros Hm Hk h w. unfold bind. specialize (Hm h w).
  destruct (m h w) as [[a|msg] w1]; simpl in *; [|done].
  etrans; [exact Hm|apply Hk].
Qed.

Lemma preserves_try_catch {A} (m : Script A) hd :
  preserves R m → (∀ msg, preserves R (hd msg)) → preserves R (try_catch m hd).
Proof.
  intros Hm Hk h w. unfold try_catch. specialize (Hm h w).
  destruct (m h w) as [[a|msg] w1]; simpl in *; [done|].
  etrans; [exact Hm|apply Hk].
Qed.

Lemma preserves_when b m : preserves R m → preserves R (when b m).
Proof. destruct b; simpl; [done|]. intros _. apply preserves_ret. Qed.

Lemma preserves_for_each {A} (l : list A) body :
  (∀ x, preserves R (body x)) → preserves R (for_each l body).
Proof.
  intros Hb. induction l as [|x l IH]; simpl.
  - apply preserves_ret.
  - apply preserves_bind; [apply Hb|done].
Qed.

Lemma preserves_fold_each {A S} (l : list A) (s : S) body :
  (∀ s x, preserves R (body s x)) → preserves R (fold_each l s body).
Proof.
  intros Hb. revert s. induction l as [|x l IH]; intros s; simpl.
  - apply preserves_ret.
  - apply preserves_bind; [apply Hb|]. intros s'. apply IH.
Qed.
End preserves.


Ltac preserves_step :=
  match goal with
  | |- preserves _ (bind _ _) => apply preserves_bind
  | |- preserves _ (try_catch _ _) => apply preserves_try_catch
  | |- preserves _ (for_each _ _) => apply preserves_for_each
  | |- preserves _ (fold_each _ _ _) => apply preserves_fold_each
  | |- preserves _ (when _ _) => apply preserves_when
  | |- preserves _ (ret _) => apply preserves_ret
  | |- preserves _ (throw _) => apply preserves_throw
  | |- preserves _ (inspect _) => apply preserves_inspect
  | |- preserves _ (Gmail.attempt _) => apply preserves_attempt
  | |- preserves _ getAutoSyncEnabled => apply preserves_getAutoSyncEnabled
  | |- preserves _ (modify _) => apply preserves_modify; intros
  | |- preserves _ (match ?x with _ => _ end) => destruct x
  | |- preserves _ (let '(_, _) := ?x in _) => destruct x
  | |- PreOrder _ => apply _
  | |- Quiet _ => first [assumption | apply _]
  | |- AdmitsCreate _ => first [assumption | apply _]
  | |- AdmitsNames _ => first [assumption | apply _]
  | |- AdmitsRetag _ => first [assumption | apply _]
  | |- ∀ _, _ => intros
  end.

Section quiet_scripts.
Context (R : relation World) `{!Quiet R}.

Lemma preserves_logDebug msg : preserves R (logDebug msg).
Proof. unfold logDebug. repeat preserves_step. apply quiet_console. Qed.

Lemma preserves_logError msg : preserves R (logError msg).
Proof. unfold logError. repeat preserves_step. apply quiet_console. Qed.

Lemma preserves_console_error msg : preserves R (console_error msg).
Proof. unfold console_error. repeat preserves_step. apply quiet_console. Qed.

Lemma preserves_toast msg title timeout : preserves R (Sheet.toast msg title timeout).
Proof. unfold Sheet.toast. repeat preserves_step. apply quiet_toast. Qed.

Lemma preserves_set_id row v : preserves R (Sheet.setValue row LABEL_ID_COLUMN v).
Proof. unfold Sheet.setValue. repeat preserves_step. apply quiet_set_id. Qed.

Lemma preserves_clear_id row : preserves R (Sheet.clearContent row LABEL_ID_COLUMN).
Proof. unfold Sheet.clearContent. repeat preserves_step. apply quiet_clear_id. Qed.

Lemma preserves_set_name `{!AdmitsNames R} row v :
  preserves R (Sheet.setValue row NAME_COLUMN v).
Proof. unfold Sheet.setValue. repeat preserves_step. apply admits_set_name. Qed.

Lemma preserves_list : preserves R Gmail.Users_Labels_list.
Proof.
  unfold Gmail.Users_Labels_list. repeat preserves_step.
  intros h w. simpl. reflexivity.
Qed.

Lemma preserves_getLabelMap : preserves R getLabelMap.
Proof.
  unfold getLabelMap.
  repeat match goal with
         | |- preserves _ Gmail.Users_Labels_list => apply preserves_list
         | |- preserves _ (logDebug _) => apply preserves_logDebug
         | |- preserves _ (logError _) => apply preserves_logError
         | _ => preserves_step
         end.
Qed.

Lemma preserves_getLabelId name : preserves R (getLabelId name).
Proof.
  unfold getLabelId. apply preserves_bind; [apply _|apply preserves_getLabelMap|].
  intros. apply preserves_ret. apply _.
Qed.

Lemma preserves_read_sheet_labels lastRow : preserves R (read_sheet_labels lastRow).
Proof. unfold read_sheet_labels, Sheet.getValue. repeat preserves_step. Qed.

Lemma preserves_search name : preserves R (Gmail.search_label name).
Proof. unfold Gmail.search_label. repeat preserves_step. Qed.

Lemma preserves_getUserLabelByName name : preserves R (Gmail.getUserLabelByName name).
Proof. unfold Gmail.getUserLabelByName. repeat preserves_step. Qed.

Lemma preserves_showSyncResults r : preserves R (showSyncResults r).
Proof.
  unfold showSyncResults.
  repeat match goal with
         | |- preserves _ (Sheet.toast _ _ _) => apply preserves_toast
         | _ => preserves_step
         end.
Qed.
End quiet_scripts.

Ltac preserves_quiet :=
  match goal with
  | |- preserves _ (logDebug _) => apply preserves_logDebug
  | |- preserves _ (logError _) => apply preserves_logError
  | |- preserves _ (console_error _) => apply preserves_console_error
  | |- preserves _ (Sheet.toast _ _ _) => apply preserves_toast
  | |- preserves _ (Sheet.setValue _ LABEL_ID_COLUMN _) => apply preserves_set_id
  | |- preserves _ (Sheet.clearContent _ LABEL_ID_COLUMN) => apply preserves_clear_id
  | |- preserves _ (Sheet.setValue _ NAME_COLUMN _) => apply preserves_set_name
  | |- preserves _ Gmail.Users_Labels_list => apply preserves_list
  | |- preserves _ getLabelMap => apply preserves_getLabelMap
  | |- preserves _ (getLabelId _) => apply preserves_getLabelId
  | |- preserves _ (read_sheet_labels _) => apply preserves_read_sheet_labels
  | |- preserves _ (Gmail.search_label _) => apply preserves_search
  | |- preserves _ (Gmail.getUserLabelByName _) => apply preserves_getUserLabelByName
  | |- preserves _ (showSyncResults _) => apply preserves_showSyncResults
  | |- preserves _ Sheet.getLastRow => apply preserves_inspect
  | |- preserves _ (Sheet.getValue _ _) => apply preserves_inspect
  | _ => preserves_step
  end.

Section creating_scripts.
Context (R : relation World) `{!Quiet R, !AdmitsCreate R}.

Lemma preserves_Gmail_createLabel name : preserves R (Gmail.createLabel name).
Proof.
  unfold Gmail.createLabel. repeat preserves_step.
  - apply admits_create_call.
  - apply admits_add_label.
Qed.
End creating_scripts.

Ltac preserves_create :=
  match goal with
  | |- preserves _ (Gmail.createLabel _) => apply preserves_Gmail_createLabel
  | _ => preserves_quiet
  end.

Section syncing_scripts.
Context (R : relation World) `{!Quiet R, !AdmitsCreate R}.

Lemma preserves_sync_sheet_label labelMap sheetLabelMap name :
  preserves R (sync_sheet_label labelMap sheetLabelMap name).
Proof.
  unfold sync_sheet_label. repeat preserves_create.
Qed.

Lemma preserves_sync_sheet_labels labelMap sheetLabelMap :
  preserves R (sync_sheet_labels labelMap sheetLabelMap).
Proof.
  unfold sync_sheet_labels. apply preserves_for_each; [apply _|]. intros.
  apply preserves_sync_sheet_label.
Qed.
End syncing_scripts.

Section naming_scripts.
Context (R : relation World) `{!Quiet R, !AdmitsCreate R, !AdmitsNames R}.

Lemma preserves_add_parent_label lastRow state parentPath :
  preserves R (add_parent_label lastRow state parentPath).
Proof.
  unfold add_parent_label. cbv zeta. repeat preserves_create.
Qed.

Lemma preserves_addParentLabelsToSheet name : preserves R (addParentLabelsToSheet name).
Proof.
  unfold addParentLabelsToSheet.
  repeat match goal with
         | |- preserves _ (add_parent_label _ _ _) => apply preserves_add_parent_label
         | _ => preserves_create
         end.
Qed.
End naming_scripts.

Ltac preserves_naming :=
  match goal with
  | |- preserves _ (addParentLabelsToSheet _) => apply preserves_addParentLabelsToSheet
  | |- preserves _ (sync_sheet_labels _ _) => apply preserves_sync_sheet_labels
  | |- preserves _ (sync_sheet_label _ _ _) => apply preserves_sync_sheet_label
  | _ => preserves_create
  end.

Section appending_scripts.
Context (R : relation World) `{!Quiet R, !AdmitsCreate R, !AdmitsNames R}.

Lemma preserves_createLabel row name : preserves R (createLabel row name).
Proof.
  unfold createLabel. repeat preserves_naming.
Qed.

Lemma preserves_adopt_remote_label sheetLabelMap lastRow label :
  preserves R (adopt_remote_label sheetLabelMap lastRow label).
Proof.
  unfold adopt_remote_label. repeat preserves_naming.
Qed.

Lemma preserves_adopt_remote_labels sheetLabelMap lastRow :
  preserves R (adopt_remote_labels sheetLabelMap lastRow).
Proof.
  unfold adopt_remote_labels.
  repeat match goal with
         | |- preserves _ (adopt_remote_label _ _ _) => apply preserves_adopt_remote_label
         | _ => preserves_naming
         end.
Qed.

Lemma preserves_syncAllLabels : preserves R syncAllLabels.
Proof.
  unfold syncAllLabels.
  repeat match goal with
         | |- preserves _ (adopt_remote_labels _ _) => apply preserves_adopt_remote_labels
         | _ => preserves_naming
         end.
Qed.

Lemma preserves_onOpenWithFullPermissions : preserves R onOpenWithFullPermissions.
Proof.
  unfold onOpenWithFullPermissions.
  repeat match goal with
         | |- preserves _ syncAllLabels => apply preserves_syncAllLabels
         | _ => preserves_naming
         end.
Qed.
End appending_scripts.

Section retagging_scripts.
Context (R : relation World) `{!Quiet R, !AdmitsCreate R, !AdmitsNames R, !AdmitsRetag R}.

Lemma preserves_through_handle name (f : World → World) :
  (∀ w, Gmail.has_user_label name (labels w) = true → R w (f w)) →
  preserves R (run Gmail.through_handle name; modify f).
Proof.
  intros Hf h w. unfold bind, Gmail.through_handle, modify.
  destruct (Gmail.has_user_label name (labels w)) eqn:E; simpl; [by apply Hf|reflexivity].
Qed.

Lemma preserves_addToThreads name batch : preserves R (Gmail.addToThreads name batch).
Proof.
  unfold Gmail.addToThreads.
  repeat first [apply preserves_through_handle | preserves_step];
    first [apply admits_add_call | by apply admits_tag].
Qed.

Lemma preserves_removeFromThreads name batch : preserves R (Gmail.removeFromThreads name batch).
Proof.
  unfold Gmail.removeFromThreads.
  repeat first [apply preserves_through_handle | preserves_step];
    first [apply admits_remove_call | by apply admits_untag].
Qed.

Lemma preserves_Gmail_deleteLabel name : preserves R (Gmail.deleteLabel name).
Proof.
  unfold Gmail.deleteLabel.
  repeat first [apply preserves_through_handle | preserves_step];
    first [apply admits_delete_call | by apply admits_drop].
Qed.

End retagging_scripts.

Ltac preserves_retag :=
  match goal with
  | |- preserves _ (createLabel _ _) => apply preserves_createLabel
  | |- preserves _ (Gmail.addToThreads _ _) => apply preserves_addToThreads
  | |- preserves _ (Gmail.removeFromThreads _ _) => apply preserves_removeFromThreads
  | |- preserves _ (Gmail.deleteLabel _) => apply preserves_Gmail_deleteLabel
  | _ => preserves_naming
  end.

Section row_change_scripts.
Context (R : relation World) `{!Quiet R, !AdmitsCreate R, !AdmitsNames R, !AdmitsRetag R}.

Lemma preserves_updateLabel row old new : preserves R (updateLabel row old new).
Proof.
  unfold updateLabel. repeat preserves_retag.
Qed.

Lemma preserves_deleteLabel row name : preserves R (deleteLabel row name).
Proof.
  unfold deleteLabel. repeat preserves_retag.
Qed.

Lemma preserves_handleLabelChange row old new : preserves R (handleLabelChange row old new).
Proof.
  unfold handleLabelChange.
  repeat match goal with
         | |- preserves _ (updateLabel _ _ _) => apply preserves_updateLabel
         | |- preserves _ (deleteLabel _ _) => apply preserves_deleteLabel
         | _ => preserves_retag
         end.
Qed.

Lemma preserves_onEditTrigger e : preserves R (onEditTrigger e).
Proof.
  unfold onEditTrigger.
  repeat match goal with
         | |- preserves _ (handleLabelChange _ _ _) => apply preserves_handleLabelChange
         | _ => preserves_retag
         end.
Qed.
End row_change_scripts.

(** ** The listing as the scripts see it *)


Lemma getLabelMap_eq h w :
  getLabelMap h w = (Normal (label_map_of h w), record_console (getLabelMap_entry h w) w).
Proof.
  unfold getLabelMap, label_map_of, getLabelMap_entry, listing_ok,
    Gmail.Users_Labels_list, Gmail.attempt, try_catch, bind.
  destruct (faults h ListLabels); [reflexivity|].
  destruct (list_payload h); reflexivity.
Qed.

Lemma getLabelId_eq name h w :
  getLabelId name h w
  = (Normal (lookup_id (label_map_of h w) name), record_console (getLabelMap_entry h w) w).
Proof. unfold getLabelId, bind. rewrite getLabelMap_eq. reflexivity. Qed.

Lemma label_map_of_console h e w : label_map_of h (record_console e w) = label_map_of h w.
Proof. done. Qed.


Lemma healthy_listing_ok h : healthy h → listing_ok h = true.
Proof. intros [Hf Hp]. unfold listing_ok. by rewrite Hf, Hp. Qed.

Lemma healthy_label_map h w : healthy h → label_map_of h w = build_label_map (labels w).
Proof. intros Hh. unfold label_map_of. by rewrite healthy_listing_ok. Qed.

Lemma attempt_healthy h c w : healthy h → Gmail.attempt c h w = (Normal tt, w).
Proof. intros [Hf _]. unfold Gmail.attempt. by rewrite Hf. Qed.


Lemma nominal_host_healthy : healthy nominal_host.
Proof. done. Qed.

(** * The row-change processor compares names as exact strings *)

Lemma eqb_refl_false (s : string) : String.eqb s s && negb (String.eqb s s) = false.
Proof. by rewrite String.eqb_refl. Qed.

Lemma handleLabelChange_same row v h w :
  handleLabelChange row v v h w
  = logDebug ("Processing label change: " +:+ quoted v +:+ " -> " +:+ quoted v) h w.
Proof.
  unfold handleLabelChange, bind. cbn.
  rewrite String.eqb_refl.
  destruct (String.eqb v ""); reflexivity.
Qed.

Lemma handleLabelChange_create row new h w :
  new ≠ "" →
  handleLabelChange row "" new h w
  = (run logDebug ("Processing label change: " +:+ quoted "" +:+ " -> " +:+ quoted new);
     createLabel row new) h w.
Proof.
  intros Hn. apply String.eqb_neq in Hn.
  unfold handleLabelChange, bind. cbn. by rewrite Hn.
Qed.

Lemma handleLabelChange_delete row old h w :
  old ≠ "" →
  handleLabelChange row old "" h w
  = (run logDebug ("Processing label change: " +:+ quoted old +:+ " -> " +:+ quoted "");
     deleteLabel row old) h w.
Proof.
  intros Ho. apply String.eqb_neq in Ho.
  unfold handleLabelChange, bind. cbn. by rewrite Ho.
Qed.

Lemma handleLabelChange_rename row old new h w :
  old ≠ "" → new ≠ "" → old ≠ new →
  handleLabelChange row old new h w
  = (run logDebug ("Processing label change: " +:+ quoted old +:+ " -> " +:+ quoted new);
     updateLabel row old new) h w.
Proof.
  intros Ho Hn Hne. apply String.eqb_neq in Ho, Hn, Hne.
  unfold handleLabelChange, bind. cbn. by rewrite Ho, Hn, Hne.
Qed.

(** C9. The row-change processor classifies an edit by exact string
    comparison, without trimming: equal old and new values (both empty
    included) run no operation and leave the sheet, the labels, the threads
    and the remote call trace as they were; an empty old value with a
    non-empty new one is a Create, a non-empty old value with an empty new
    one is a Delete, two different non-empty values are a Rename; a value
    made of blanks is a non-empty name, so the edit from A to a single
    space is a Rename; and the edit trigger hands non-empty cell values on
    unchanged. *)
Theorem handleLabelChange_exact_strings (h : Host) (w : World) (row : nat)
    (oldValue newValue : string) :
  (oldValue = newValue →
     (handleLabelChange row oldValue newValue h w).1 = Normal tt
     ∧ sheet (handleLabelChange row oldValue newValue h w).2 = sheet w
     ∧ labels (handleLabelChange row oldValue newValue h w).2 = labels w
     ∧ threads (handleLabelChange row oldValue newValue h w).2 = threads w
     ∧ calls (handleLabelChange row oldValue newValue h w).2 = calls w)
  ∧ (oldValue = "" → newValue ≠ "" →
     handleLabelChange row oldValue newValue h w
     = (run logDebug ("Processing label change: " +:+ quoted oldValue +:+ " -> "
                      +:+ quoted newValue);
        createLabel row newValue) h w)
  ∧ (oldValue ≠ "" → newValue = "" →
     handleLabelChange row oldValue newValue h w
     = (run logDebug ("Processing label change: " +:+ quoted oldValue +:+ " -> "
                      +:+ quoted newValue);
        deleteLabel row oldValue) h w)
  ∧ (oldValue ≠ "" → newValue ≠ "" → oldValue ≠ newValue →
     handleLabelChange row oldValue newValue h w
     = (run logDebug ("Processing label change: " +:+ quoted oldValue +:+ " -> "
                      +:+ quoted newValue);
        updateLabel row oldValue newValue) h w)
  ∧ handleLabelChange row "A" " " h w
    = (run logDebug ("Processing label change: " +:+ quoted "A" +:+ " -> " +:+ quoted " ");
       updateLabel row "A" " ") h w
  ∧ (newValue ≠ "" → or_empty (Some newValue) = newValue)
  ∧ or_empty None = "".
Proof.
  split; [intros ->; by rewrite handleLabelChange_same|].
  split; [intros ->; apply handleLabelChange_create|].
  split; [intros Ho ->; by apply handleLabelChange_delete|].
  split; [apply handleLabelChange_rename|].
  split; [by apply handleLabelChange_rename|].
  split; [|done].
  intros Hn. apply String.eqb_neq in Hn. unfold or_empty, Js.truthy. by rewrite Hn.
Qed.

(** * The directory client never raises *)



(** * The reconciliation returns nothing *)

Lemma yields_only_bind {A B} (P : B → Prop) (m : Script A) (k : A → Script B) :
  (∀ a, yields_only P (k a)) → yields_only P (bind m k).
Proof.
  intros Hk h w. unfold bind. destruct (m h w) as [[a|msg] w1]; [apply Hk|done].
Qed.

Lemma syncAllLabels_yields_undefined : yields_only (λ r, r = Undefined) syncAllLabels.
Proof.
  unfold syncAllLabels. repeat (apply yields_only_bind; intros). by intros h w.
Qed.

(** C3. [syncAllLabels] hands no result record to its caller: with a sheet
    holding the one name Work and an empty account, the pass creates Work
    in Gmail and returns [undefined]; [showSyncResults] raises on it, so the
    auto sync on open reports a failure although the pass went through. *)
Theorem auto_sync_reports_failure :
  (syncAllLabels nominal_host
     (world_of [header; ((2, NAME_COLUMN), "Work")] [] [])).1 = Normal Undefined
  ∧ label_name <$> labels (onOpenWithFullPermissions nominal_host
       (world_of [header; ((2, NAME_COLUMN), "Work")] [] [])).2 = ["Work"]
  ∧ ConsoleError
      "[ERROR] Auto sync failed: Cannot read properties of undefined (reading 'createdInGmail')"
    ∈ console (onOpenWithFullPermissions nominal_host
                 (world_of [header; ((2, NAME_COLUMN), "Work")] [] [])).2
  ∧ toast_message <$> toasts (onOpenWithFullPermissions nominal_host
       (world_of [header; ((2, NAME_COLUMN), "Work")] [] [])).2
    = ["All labels synced bidirectionally between Gmail and spreadsheet";
       "Auto sync failed - check logs"].
Proof.
  split; [by vm_compute|]. split; [by vm_compute|]. split; [|by vm_compute].
  vm_compute. do 3 apply list_elem_of_further. apply list_elem_of_here.
Qed.

(** * Facts about the services *)

Arguments String.append : simpl never.

Lemma truthy_true s : Js.truthy s = true ↔ s ≠ "".
Proof.
  unfold Js.truthy. rewrite negb_true_iff. apply String.eqb_neq.
Qed.


(** ** Cells *)

Lemma value_insert s row col v : Sheet.value (<[(row, col) := v]> s) row col = v.
Proof. unfold Sheet.value. by rewrite lookup_insert_eq. Qed.

Lemma value_insert_ne s row col v row' col' :
  (row, col) ≠ (row', col') →
  Sheet.value (<[(row, col) := v]> s) row' col' = Sheet.value s row' col'.
Proof. intros Hne. unfold Sheet.value. by rewrite lookup_insert_ne. Qed.

Lemma value_delete s row col : Sheet.value (delete (row, col) s) row col = "".
Proof. unfold Sheet.value. by rewrite lookup_delete_eq. Qed.

Lemma value_delete_ne s row col row' col' :
  (row, col) ≠ (row', col') →
  Sheet.value (delete (row, col) s) row' col' = Sheet.value s row' col'.
Proof. intros Hne. unfold Sheet.value. by rewrite lookup_delete_ne. Qed.

Lemma name_id_columns (row row' : nat) : (row, LABEL_ID_COLUMN) ≠ (row', NAME_COLUMN).
Proof. intros [=]. Qed.

Lemma id_name_columns (row row' : nat) : (row, NAME_COLUMN) ≠ (row', LABEL_ID_COLUMN).
Proof. intros [=]. Qed.



(** ** The label map *)

Lemma build_label_map_snoc ls l :
  build_label_map (ls ++ [l]) = <[label_name l := label_id l]> (build_label_map ls).
Proof. unfold build_label_map. by rewrite foldl_app. Qed.

Lemma has_label_app name ls1 ls2 :
  Gmail.has_label name (ls1 ++ ls2) = Gmail.has_label name ls1 || Gmail.has_label name ls2.
Proof. unfold Gmail.has_label. apply existsb_app. Qed.

Lemma has_label_true name ls :
  Gmail.has_label name ls = true ↔ name ∈ label_name <$> ls.
Proof.
  unfold Gmail.has_label. rewrite existsb_exists, list_elem_of_fmap.
  split.
  - intros (l & Hin & Heq). apply String.eqb_eq in Heq. exists l.
    split; [done|]. by apply list_elem_of_In.
  - intros (l & Heq & Hin). exists l. split; [by apply list_elem_of_In|].
    unfold Gmail.named. by apply String.eqb_eq.
Qed.


Lemma has_user_label_has_label name ls :
  Gmail.has_user_label name ls = true → Gmail.has_label name ls = true.
Proof.
  unfold Gmail.has_user_label, Gmail.has_label. rewrite !existsb_exists.
  intros (l & Hin & Hl). apply andb_true_iff in Hl as [Hn _]. eauto.
Qed.

Lemma build_label_map_None name ls :
  build_label_map ls !! name = None ↔ Gmail.has_label name ls = false.
Proof.
  induction ls as [|l ls IH] using rev_ind.
  - done.
  - rewrite build_label_map_snoc, has_label_app, orb_false_iff. simpl.
    rewrite orb_false_r. unfold Gmail.named.
    destruct (decide (label_name l = name)) as [<-|Hne].
    + rewrite lookup_insert_eq, String.eqb_refl. split; [done|]. by intros [_ ?].
    + rewrite lookup_insert_ne by done. apply String.eqb_neq in Hne.
      rewrite Hne, IH. split; [done|]. by intros [? _].
Qed.

Lemma build_label_map_Some name i ls :
  build_label_map ls !! name = Some i →
  ∃ l, l ∈ ls ∧ label_name l = name ∧ label_id l = i.
Proof.
  induction ls as [|l ls IH] using rev_ind.
  - done.
  - rewrite build_label_map_snoc.
    destruct (decide (label_name l = name)) as [<-|Hne].
    + rewrite lookup_insert_eq. intros [= <-]. exists l.
      split; [|done]. apply elem_of_app. right. apply list_elem_of_here.
    + rewrite lookup_insert_ne by done. intros H.
      destruct (IH H) as (l' & ? & ? & ?). exists l'.
      split; [|done]. apply elem_of_app. by left.
Qed.


Lemma lookup_id_present name ls :
  ids_nonempty ls → Gmail.has_label name ls = true →
  ∃ i, lookup_id (build_label_map ls) name = Some i ∧ i ≠ ""
       ∧ build_label_map ls !! name = Some i.
Proof.
  intros Hids Hhas. unfold lookup_id.
  destruct (build_label_map ls !! name) as [i|] eqn:E.
  - destruct (build_label_map_Some _ _ _ E) as (l & Hin & _ & <-).
    unfold ids_nonempty in Hids. rewrite forallb_forall in Hids.
    apply list_elem_of_In, Hids in Hin. exists (label_id l).
    rewrite Hin. by apply truthy_true in Hin.
  - apply build_label_map_None in E. congruence.
Qed.


Lemma lookup_id_Some_truthy m name i : lookup_id m name = Some i → i ≠ "".
Proof.
  unfold lookup_id. destruct (m !! name) as [j|]; [|done].
  destruct (Js.truthy j) eqn:E; [|done]. intros [= <-]. by apply truthy_true.
Qed.

(** * The deletion guard *)

Lemma search_label_healthy h w name :
  healthy h → Gmail.search_label name h w = (Normal (Gmail.threads_of name (threads w)), w).
Proof.
  intros Hh. unfold Gmail.search_label, bind. by rewrite attempt_healthy.
Qed.

Lemma getUserLabelByName_healthy h w name :
  healthy h →
  Gmail.getUserLabelByName name h w
  = (Normal (if Gmail.has_user_label name (labels w) then Some name else None), w).
Proof.
  intros Hh. unfold Gmail.getUserLabelByName, bind. by rewrite attempt_healthy.
Qed.

Lemma logDebug_eq msg h w :
  logDebug msg h w = (Normal tt, record_console (ConsoleLog ("[DEBUG] " +:+ msg)) w).
Proof. done. Qed.

Lemma logError_eq msg h w :
  logError msg h w = (Normal tt, record_console (ConsoleError ("[ERROR] " +:+ msg)) w).
Proof. done. Qed.



(** * Objects used as dictionaries *)





(** ** Reading the name column *)

Lemma read_sheet_rows rows o h w :
  fold_each rows o
    (λ sheetLabelMap row,
       do currentLabel <- Sheet.getValue row NAME_COLUMN;
       ret (if Js.truthy currentLabel
            then Js.obj_set sheetLabelMap currentLabel row
            else sheetLabelMap)) h w
  = (Normal (index_rows (sheet w) rows o), w).
Proof.
  revert o. induction rows as [|row rows IH]; intros o; [done|].
  simpl. unfold bind at 1. simpl. apply IH.
Qed.

Lemma read_sheet_labels_eq lastRow h w :
  read_sheet_labels lastRow h w = (Normal (sheet_label_map (sheet w) lastRow), w).
Proof. apply read_sheet_rows. Qed.







(** * Creating labels *)

Ltac proj :=
  cbn [sheet labels threads next_id calls console toasts set_sheet set_labels set_threads
       bump_next_id record_call record_console record_toast].

Lemma fresh_id_truthy n : Js.truthy (Gmail.fresh_id n) = true.
Proof. reflexivity. Qed.




Lemma labels_add_label name w :
  labels (Gmail.add_label name w)
  = if Gmail.has_label name (labels w) then labels w
    else labels w ++ [{| label_id := Gmail.fresh_id (next_id w); label_name := name;
                         label_type := user |}].
Proof. unfold Gmail.add_label. by destruct (Gmail.has_label name (labels w)). Qed.

Lemma threads_add_label name w : threads (Gmail.add_label name w) = threads w.
Proof. unfold Gmail.add_label. by destruct (Gmail.has_label name (labels w)). Qed.

Lemma sheet_add_label name w : sheet (Gmail.add_label name w) = sheet w.
Proof. unfold Gmail.add_label. by destruct (Gmail.has_label name (labels w)). Qed.

Lemma calls_add_label name w : calls (Gmail.add_label name w) = calls w.
Proof. unfold Gmail.add_label. by destruct (Gmail.has_label name (labels w)). Qed.



(** On a healthy host with well-formed ids, [getLabelId] tells whether the
    label exists. *)
Lemma getLabelId_present name h w :
  healthy h → ids_nonempty (labels w) → Gmail.has_label name (labels w) = true →
  ∃ i, getLabelId name h w = (Normal (Some i), record_console (getLabelMap_entry h w) w)
       ∧ build_label_map (labels w) !! name = Some i.
Proof.
  intros Hh Hids Hhas. rewrite getLabelId_eq, healthy_label_map by done.
  destruct (lookup_id_present name (labels w) Hids Hhas) as (i & -> & _ & Hi). by exists i.
Qed.


(** ** One ancestor *)


(** ** All the ancestors *)







(** ** Names that have to be created *)

Lemma missing_names_ext P P' names :
  (∀ x, x ∈ P ↔ x ∈ P') → missing_names P names = missing_names P' names.
Proof.
  revert P P'. induction names as [|n names IH]; intros P P' HP; simpl; [done|].
  destruct (decide (n ∈ P)) as [Hin|Hin].
  - rewrite (bool_decide_eq_true_2 (n ∈ P)) by done.
    rewrite (bool_decide_eq_true_2 (n ∈ P')) by (by apply HP). by apply IH.
  - rewrite (bool_decide_eq_false_2 (n ∈ P)) by done.
    rewrite (bool_decide_eq_false_2 (n ∈ P')) by (by rewrite <- HP). f_equal.
    apply IH. intros x. rewrite !elem_of_app, HP. done.
Qed.





(** * Create *)

Lemma setValue_eq row col v h w :
  Sheet.setValue row col v h w = (Normal tt, set_sheet (insert (row, col) v) w).
Proof. done. Qed.

Lemma toast_eq msg title timeout h w :
  Sheet.toast msg title timeout h w
  = (Normal tt, record_toast {| toast_message := msg; toast_title := title;
                                toast_timeout := timeout |} w).
Proof. done. Qed.

(** The label exists already: its id is adopted and nothing is created. *)
Lemma createLabel_adopts row name h w :
  healthy h → ids_nonempty (labels w) → Gmail.has_label name (labels w) = true →
  ∃ w' i,
    createLabel row name h w = (Normal tt, w')
    ∧ labels w' = labels w ∧ threads w' = threads w ∧ calls w' = calls w
    ∧ build_label_map (labels w) !! name = Some i
    ∧ sheet w' = <[(row, LABEL_ID_COLUMN) := i]> (sheet w).
Proof.
  intros Hh Hids Hhas. unfold createLabel, try_catch, bind.
  rewrite logDebug_eq.
  destruct (getLabelId_present name h (record_console
              (ConsoleLog ("[DEBUG] " +:+ "Creating label: " +:+ quoted name)) w) Hh Hids Hhas)
    as (i & -> & Hi).
  rewrite logDebug_eq, setValue_eq, toast_eq.
  eexists _, i. split; [reflexivity|]. by proj.
Qed.


(** * Batches *)









(** * Tags *)

Lemma thread_id_tag n t : thread_id (Gmail.tag n t) = thread_id t.
Proof. unfold Gmail.tag. by destruct (Gmail.tagged n t). Qed.








Lemma tagged_untag_ne n m t : n ≠ m → Gmail.tagged n (Gmail.untag m t) = Gmail.tagged n t.
Proof.
  intros Hne. unfold Gmail.tagged, Gmail.untag. simpl.
  apply eq_true_iff_eq. rewrite !existsb_exists. split.
  - intros (x & Hx & Heq). exists x. split; [|done].
    apply list_elem_of_In. apply list_elem_of_In, list_elem_of_filter in Hx as [_ Hx]. done.
  - intros (x & Hx & Heq). exists x. split; [|done]. apply String.eqb_eq in Heq as <-.
    apply list_elem_of_In, list_elem_of_filter. split; [done|]. by apply list_elem_of_In.
Qed.




(** * Rename *)

Ltac proj ::=
  cbn [sheet labels threads next_id calls console toasts set_sheet set_labels set_threads
       bump_next_id record_call record_console record_toast
       Gmail.tag_batch Gmail.untag_batch Gmail.drop_label].


Lemma through_handle_ok name h w :
  Gmail.has_user_label name (labels w) = true → Gmail.through_handle name h w = (Normal tt, w).
Proof. intros H. unfold Gmail.through_handle. by rewrite H. Qed.



Lemma deleteLabel_healthy name h w :
  healthy h → Gmail.has_user_label name (labels w) = true →
  Gmail.deleteLabel name h w
  = (Normal tt, Gmail.drop_label name (record_call (DeleteLabel name) w)).
Proof.
  intros Hh Hu. unfold Gmail.deleteLabel, bind. simpl.
  rewrite attempt_healthy by done. by rewrite through_handle_ok.
Qed.



Lemma has_user_label_app name ls1 ls2 :
  Gmail.has_user_label name (ls1 ++ ls2)
  = Gmail.has_user_label name ls1 || Gmail.has_user_label name ls2.
Proof. unfold Gmail.has_user_label. apply existsb_app. Qed.

Lemma has_user_label_add_label name w :
  Gmail.has_label name (labels w) = false →
  Gmail.has_user_label name (labels (Gmail.add_label name w)) = true.
Proof.
  intros H. rewrite labels_add_label, H, has_user_label_app. simpl.
  unfold Gmail.named. simpl. by rewrite String.eqb_refl, orb_true_r.
Qed.


(** ** Deleting the old label *)

Lemma has_user_label_dropped name ls :
  Gmail.has_user_label name (filter (λ l, (Gmail.named name l && Gmail.is_user l) = false) ls)
  = false.
Proof.
  apply not_true_iff_false. unfold Gmail.has_user_label. rewrite existsb_exists.
  intros (l & Hl & Hu). apply list_elem_of_In, list_elem_of_filter in Hl as [Hl _].
  congruence.
Qed.


Lemma has_label_dropped_ne name other ls :
  name ≠ other →
  Gmail.has_label name (filter (λ l, (Gmail.named other l && Gmail.is_user l) = false) ls)
  = Gmail.has_label name ls.
Proof.
  intros Hne. apply eq_true_iff_eq. unfold Gmail.has_label. rewrite !existsb_exists.
  split.
  - intros (l & Hl & Hn). exists l. split; [|done].
    apply list_elem_of_In. apply list_elem_of_In, list_elem_of_filter in Hl as [_ Hl]. done.
  - intros (l & Hl & Hn). exists l. split; [|done].
    apply list_elem_of_In, list_elem_of_filter. split; [|by apply list_elem_of_In].
    unfold Gmail.named in *. apply String.eqb_eq in Hn.
    apply andb_false_iff. left. apply String.eqb_neq. congruence.
Qed.


(** * The rename re-tags in batches, adds first *)



(** * Relations kept by the scripts *)

Global Instance only_creates_preorder : PreOrder only_creates.
Proof.
  split.
  - intros w. split; [exists []; by rewrite app_nil_r|]. split; [done|].
    exists []. by rewrite app_nil_r.
  - intros w1 w2 w3 ([L1 HL1] & Ht1 & cs1 & Hc1 & Hf1) ([L2 HL2] & Ht2 & cs2 & Hc2 & Hf2).
    split; [exists (L1 ++ L2); by rewrite HL2, HL1, app_assoc|].
    split; [congruence|]. exists (cs1 ++ cs2). split; [by rewrite Hc2, Hc1, app_assoc|].
    by apply Forall_app.
Qed.

Lemma only_creates_same w w' :
  labels w' = labels w → threads w' = threads w → calls w' = calls w → only_creates w w'.
Proof.
  intros Hl Ht Hc. split; [exists []; by rewrite app_nil_r|]. split; [done|].
  exists []. by rewrite app_nil_r.
Qed.

Global Instance only_creates_quiet : Quiet only_creates.
Proof. split; [apply _|intros; by apply only_creates_same..]. Qed.

Global Instance only_creates_names : AdmitsNames only_creates.
Proof. split. intros. by apply only_creates_same. Qed.

Global Instance only_creates_create : AdmitsCreate only_creates.
Proof.
  split.
  - intros name w. split; [exists []; by rewrite app_nil_r|]. split; [done|].
    exists [CreateLabel name]. split; [done|]. by repeat constructor.
  - intros name w. split; [|split].
    + rewrite labels_add_label. destruct (Gmail.has_label name (labels w)).
      * exists []. by rewrite app_nil_r.
      * by eexists.
    + apply threads_add_label.
    + exists []. rewrite calls_add_label. by rewrite app_nil_r.
Qed.

Global Instance calls_grow_preorder : PreOrder calls_grow.
Proof.
  split.
  - intros w. exists []. by rewrite app_nil_r.
  - intros w1 w2 w3 [cs1 H1] [cs2 H2]. exists (cs1 ++ cs2). by rewrite H2, H1, app_assoc.
Qed.

Lemma calls_grow_same w w' : calls w' = calls w → calls_grow w w'.
Proof. intros H. exists []. by rewrite app_nil_r. Qed.

Global Instance calls_grow_quiet : Quiet calls_grow.
Proof. split; [apply _|intros; by apply calls_grow_same..]. Qed.

Global Instance calls_grow_names : AdmitsNames calls_grow.
Proof. split. intros. by apply calls_grow_same. Qed.

Global Instance calls_grow_create : AdmitsCreate calls_grow.
Proof.
  split.
  - intros name w. by eexists.
  - intros name w. apply calls_grow_same, calls_add_label.
Qed.

Global Instance calls_grow_retag : AdmitsRetag calls_grow.
Proof. split; intros; first [by eexists|by apply calls_grow_same]. Qed.

(** * The new label is created before anything is re-tagged *)












(** * A rename that stops half-way *)



(** * The name column *)

Global Instance same_names_preorder : PreOrder same_names.
Proof.
  split.
  - by intros w row.
  - intros w1 w2 w3 H1 H2 row. by rewrite H2, H1.
Qed.

Lemma same_names_same_sheet w w' : sheet w' = sheet w → same_names w w'.
Proof. intros H row. by rewrite H. Qed.

Global Instance same_names_quiet : Quiet same_names.
Proof.
  split; [apply _|..].
  - intros row v w row'. proj. by rewrite value_insert_ne by apply name_id_columns.
  - intros row w row'. proj. by rewrite value_delete_ne by apply name_id_columns.
  - intros. by apply same_names_same_sheet.
  - intros. by apply same_names_same_sheet.
Qed.

Global Instance same_names_create : AdmitsCreate same_names.
Proof.
  split; intros; apply same_names_same_sheet; [done|apply sheet_add_label].
Qed.

Global Instance same_names_retag : AdmitsRetag same_names.
Proof. split; intros; by apply same_names_same_sheet. Qed.

(** * System labels are left alone *)

Lemma threads_of_fmap name (f : Thread → Thread) ts :
  (∀ t, thread_id (f t) = thread_id t) →
  (∀ t, Gmail.tagged name (f t) = Gmail.tagged name t) →
  Gmail.threads_of name (f <$> ts) = Gmail.threads_of name ts.
Proof.
  intros Hid Htag. unfold Gmail.threads_of. induction ts as [|t ts IH]; [done|].
  rewrite fmap_cons. destruct (Gmail.tagged name t) eqn:E.
  - rewrite !filter_cons_True by (by rewrite ?Htag). rewrite !fmap_cons, IH. by rewrite Hid.
  - rewrite !filter_cons_False by (rewrite ?Htag; congruence). done.
Qed.

Lemma tagged_tag_ne n m t : n ≠ m → Gmail.tagged n (Gmail.tag m t) = Gmail.tagged n t.
Proof.
  intros Hne. unfold Gmail.tag. destruct (Gmail.tagged m t); [done|].
  unfold Gmail.tagged. simpl. rewrite existsb_app. simpl.
  apply String.eqb_neq in Hne. by rewrite Hne, !orb_false_r.
Qed.

Lemma system_only_ne name other ls :
  system_only name ls → Gmail.has_user_label other ls = true → name ≠ other.
Proof. intros [_ Hn] Ho ->. congruence. Qed.

Global Instance spares_system_preorder : PreOrder spares_system.
Proof.
  split.
  - intros w. split; [done|]. split; [by left|]. done.
  - intros w1 w2 w3 (Ha1 & Hb1 & Hc1) (Ha2 & Hb2 & Hc2). split; [|split].
    + intros l Hl Hs. by apply Ha2; [apply Ha1|].
    + intros l Hl. destruct (Hb2 l Hl) as [Hl2|]; [|by right]. by apply Hb1.
    + intros name Hn. destruct (Hc1 name Hn) as [Hn2 Ht2].
      destruct (Hc2 name Hn2) as [Hn3 Ht3]. split; [done|congruence].
Qed.

Lemma spares_system_same w w' :
  labels w' = labels w → threads w' = threads w → spares_system w w'.
Proof.
  intros Hl Ht. unfold spares_system. rewrite Hl, Ht. split; [done|]. split; [by left|done].
Qed.

Global Instance spares_system_quiet : Quiet spares_system.
Proof. split; [apply _|intros; by apply spares_system_same..]. Qed.

Global Instance spares_system_names : AdmitsNames spares_system.
Proof. split. intros. by apply spares_system_same. Qed.

Global Instance spares_system_create : AdmitsCreate spares_system.
Proof.
  split; [intros; by apply spares_system_same|].
  intros name w. unfold spares_system.
  rewrite threads_add_label, labels_add_label.
  destruct (Gmail.has_label name (labels w)) eqn:E.
  { split; [done|]. split; [by left|done]. }
  split; [|split].
  - intros l Hl _. apply elem_of_app. by left.
  - intros l [Hl|Hl%list_elem_of_singleton]%elem_of_app; [by left|]. right. by subst l.
  - intros n [Hn Hu]. split; [|done]. unfold system_only.
    rewrite has_label_app, has_user_label_app, Hn, Hu. split; [done|]. simpl.
    unfold Gmail.named. simpl.
    destruct (String.eqb name n) eqn:En; [|done].
    apply String.eqb_eq in En. congruence.
Qed.

Global Instance spares_system_retag : AdmitsRetag spares_system.
Proof.
  split; try (intros; by apply spares_system_same).
  - intros name batch w Hu. unfold spares_system. proj.
    split; [done|]. split; [by left|]. intros n Hn. split; [done|].
    apply threads_of_fmap.
    + intros t. destruct (Gmail.in_batch batch t); [apply thread_id_tag|done].
    + intros t. destruct (Gmail.in_batch batch t); [|done].
      apply tagged_tag_ne. by eapply system_only_ne.
  - intros name batch w Hu. unfold spares_system. proj.
    split; [done|]. split; [by left|]. intros n Hn. split; [done|].
    apply threads_of_fmap.
    + intros t. by destruct (Gmail.in_batch batch t).
    + intros t. destruct (Gmail.in_batch batch t); [|done].
      apply tagged_untag_ne. by eapply system_only_ne.
  - intros name w Hu. unfold spares_system. proj. split; [|split].
    + intros l Hl Hs. apply list_elem_of_filter. split; [|done].
      unfold Gmail.is_user. rewrite Hs. apply andb_false_r.
    + intros l Hl%list_elem_of_filter. left. by destruct Hl.
    + intros n Hn. pose proof (system_only_ne _ _ _ Hn Hu) as Hne.
      destruct Hn as [Hn Hnu]. split.
      * split; [by rewrite has_label_dropped_ne|].
        apply not_true_iff_false. intros H. apply not_true_iff_false in Hnu. apply Hnu.
        unfold Gmail.has_user_label in *. rewrite existsb_exists in *.
        destruct H as (l & Hl & Hlu). exists l. split; [|done].
        apply list_elem_of_In. apply list_elem_of_In, list_elem_of_filter in Hl as [_ Hl]. done.
      * apply threads_of_fmap; [done|]. intros t. by apply tagged_untag_ne.
Qed.

(** * The steps of the reconciliation *)

(** ** Step 2 never raises *)

Lemma sync_sheet_label_normal labelMap sheetLabelMap name h w :
  ∃ w', sync_sheet_label labelMap sheetLabelMap name h w = (Normal tt, w').
Proof.
  unfold sync_sheet_label, try_catch.
  match goal with |- context [match ?m h w with _ => _ end] => destruct (m h w) as [[[]|msg] w1] end.
  - by eexists.
  - rewrite logError_eq. by eexists.
Qed.

Lemma for_each_normal {A} (l : list A) body h w :
  (∀ x h w, ∃ w', body x h w = (Normal tt, w')) →
  ∃ w', for_each l body h w = (Normal tt, w').
Proof.
  intros Hb. revert w. induction l as [|x l IH]; intros w; simpl.
  - by eexists.
  - unfold bind. destruct (Hb x h w) as [w1 ->]. apply IH.
Qed.

Lemma sync_sheet_labels_normal labelMap sheetLabelMap h w :
  ∃ w', sync_sheet_labels labelMap sheetLabelMap h w = (Normal tt, w').
Proof. apply for_each_normal. intros. apply sync_sheet_label_normal. Qed.

(** ** Step 3 appends rows *)

Lemma adopt_loop sheetLabelMap ls lastRow h w :
  ∃ w',
    fold_each ls lastRow (adopt_remote_label sheetLabelMap) h w
    = (Normal (lastRow + length (adopted sheetLabelMap ls)), w')
    ∧ sheet w' = append_rows (sheet w) lastRow (adopted sheetLabelMap ls)
    ∧ labels w' = labels w ∧ threads w' = threads w ∧ calls w' = calls w
    ∧ next_id w' = next_id w ∧ toasts w' = toasts w.
Proof.
  revert lastRow w. induction ls as [|l ls IH]; intros lastRow w.
  - exists w. simpl. rewrite Nat.add_0_r. done.
  - simpl. unfold bind at 1. unfold adopt_remote_label at 1. unfold adopted.
    destruct (is_system_label l) eqn:Hsys.
    { rewrite filter_cons_False by (intros [? ?]; congruence). apply IH. }
    destruct (in_sheet_map sheetLabelMap (label_name l)) eqn:Hin.
    { rewrite filter_cons_False by (intros [? ?]; congruence). apply IH. }
    rewrite filter_cons_True by done.
    unfold bind. rewrite !setValue_eq, logDebug_eq. cbn [ret].
    destruct (IH (lastRow + 1)
                (record_console
                   (ConsoleLog ("[DEBUG] " +:+ "Added Gmail label "
                                +:+ quoted (label_name l) +:+ " to spreadsheet"))
                   (set_sheet (insert (lastRow + 1, NAME_COLUMN) (label_name l))
                      (set_sheet (insert (lastRow + 1, LABEL_ID_COLUMN) (label_id l)) w))))
      as (w' & Hrun & Hs & Hrest).
    exists w'. split.
    { rewrite Hrun. do 2 f_equal. simpl. unfold adopted. lia. }
    split; [by rewrite Hs|done].
Qed.

Lemma append_rows_outside s lastRow ls row col :
  row ≤ lastRow ∨ lastRow + length ls < row →
  Sheet.value (append_rows s lastRow ls) row col = Sheet.value s row col.
Proof.
  revert s lastRow. induction ls as [|l ls IH]; intros s lastRow Hrow; [done|].
  simpl in *. rewrite IH by lia. rewrite !value_insert_ne by (intros [=]; lia). done.
Qed.

Lemma append_rows_other_column s lastRow ls row col :
  col ≠ NAME_COLUMN → col ≠ LABEL_ID_COLUMN →
  Sheet.value (append_rows s lastRow ls) row col = Sheet.value s row col.
Proof.
  intros H1 H2. revert s lastRow. induction ls as [|l ls IH]; intros s lastRow; [done|].
  simpl. rewrite IH. rewrite !value_insert_ne by (intros [=]; done). done.
Qed.

Lemma append_rows_inside s lastRow ls i l :
  ls !! i = Some l →
  Sheet.value (append_rows s lastRow ls) (lastRow + 1 + i) NAME_COLUMN = label_name l
  ∧ Sheet.value (append_rows s lastRow ls) (lastRow + 1 + i) LABEL_ID_COLUMN = label_id l.
Proof.
  revert s lastRow i. induction ls as [|l' ls IH]; intros s lastRow i Hi; [done|].
  destruct i as [|i]; simpl in *.
  - injection Hi as ->. rewrite Nat.add_0_r. rewrite !append_rows_outside by lia.
    rewrite value_insert. rewrite value_insert_ne by apply id_name_columns.
    by rewrite value_insert.
  - replace (lastRow + 1 + S i) with (lastRow + 1 + 1 + i) by lia. by apply IH.
Qed.

(** A cell that the appended rows changed holds the name (the id) of one
    of the appended labels. *)
Lemma append_rows_changed s lastRow ls row :
  Sheet.value (append_rows s lastRow ls) row NAME_COLUMN ≠ Sheet.value s row NAME_COLUMN →
  lastRow < row
  ∧ ∃ l, l ∈ ls ∧ Sheet.value (append_rows s lastRow ls) row NAME_COLUMN = label_name l.
Proof.
  intros Hne.
  destruct (decide (row ≤ lastRow ∨ lastRow + length ls < row)) as [Hout|Hin].
  { by rewrite append_rows_outside in Hne. }
  split; [lia|].
  destruct (lookup_lt_is_Some_2 ls (row - lastRow - 1)) as [l Hl]; [lia|].
  exists l. split; [by eapply list_elem_of_lookup_2|].
  destruct (append_rows_inside s lastRow ls _ l Hl) as [Hn _].
  by replace (lastRow + 1 + (row - lastRow - 1)) with row in Hn by lia.
Qed.


(** The whole of step 3, on any host. *)
Lemma adopt_remote_labels_spec sheetLabelMap lastRow h w :
  ∃ w',
    (adopt_remote_labels sheetLabelMap lastRow h w).2 = w'
    ∧ (adopt_remote_labels sheetLabelMap lastRow h w).1
      = match faults h ListLabels with Some msg => Thrown msg | None => Normal tt end
    ∧ sheet w' = append_rows (sheet w) lastRow
                   (if listing_ok h then adopted sheetLabelMap (labels w) else [])
    ∧ labels w' = labels w ∧ threads w' = threads w ∧ calls w' = calls w
    ∧ next_id w' = next_id w ∧ toasts w' = toasts w.
Proof.
  unfold adopt_remote_labels, Gmail.Users_Labels_list, Gmail.attempt, listing_ok, bind.
  destruct (faults h ListLabels) as [msg|]; [by exists w|].
  destruct (list_payload h); [|by exists w..].
  destruct (adopt_loop sheetLabelMap (labels w) lastRow h w) as (w' & -> & Hrest).
  by exists w'.
Qed.

(** The reconciliation, step by step. *)
Lemma syncAllLabels_steps h w :
  ∃ w2 w3,
    sync_sheet_labels (label_map_of h w)
      (sheet_label_map (sheet w) (Sheet.lastRow (sheet w))) h
      (record_console (getLabelMap_entry h w) w) = (Normal tt, w2)
    ∧ (adopt_remote_labels (sheet_label_map (sheet w) (Sheet.lastRow (sheet w)))
         (Sheet.lastRow (sheet w)) h w2).2 = w3
    ∧ syncAllLabels h w
      = match faults h ListLabels with
        | Some msg => (Thrown msg, w3)
        | None =>
            (Normal Undefined,
             record_toast
               {| toast_message :=
                    "All labels synced bidirectionally between Gmail and spreadsheet";
                  toast_title := None; toast_timeout := None |} w3)
        end.
Proof.
  destruct (sync_sheet_labels_normal (label_map_of h w)
              (sheet_label_map (sheet w) (Sheet.lastRow (sheet w))) h
              (record_console (getLabelMap_entry h w) w)) as [w2 Hw2].
  exists w2. eexists. split; [done|]. split; [reflexivity|].
  unfold syncAllLabels. unfold bind at 1. unfold Sheet.getLastRow at 1, inspect at 1.
  unfold bind at 1. rewrite getLabelMap_eq.
  unfold bind at 1. rewrite read_sheet_labels_eq. proj.
  unfold bind at 1. rewrite Hw2.
  unfold bind at 1.
  destruct (adopt_remote_labels_spec
              (sheet_label_map (sheet w) (Sheet.lastRow (sheet w)))
              (Sheet.lastRow (sheet w)) h w2) as (w3 & Hw3 & Hout & _).
  destruct (adopt_remote_labels _ _ h w2) as [out w3'] eqn:E. simpl in *. subst w3'.
  rewrite Hout. by destruct (faults h ListLabels).
Qed.

(** ** Step 2, one name of the sheet *)



Lemma create_until_frame h names w :
  sheet (create_until h names w) = sheet w ∧ threads (create_until h names w) = threads w.
Proof.
  revert w. induction names as [|n names IH]; intros w; simpl; [done|].
  destruct (accepts h n); [|done].
  destruct (IH (Gmail.add_label n (record_call (CreateLabel n) w))) as [-> ->].
  by rewrite sheet_add_label, threads_add_label.
Qed.




(** ** Enumerating the names of the sheet *)




(** ** Step 2, all the names of the sheet *)

Lemma same_remote_refl w : same_remote w w.
Proof. done. Qed.


Lemma same_remote_sym w1 w2 : same_remote w1 w2 → same_remote w2 w1.
Proof. intros (? & ? & ?). done. Qed.






(** ** What the reconciliation creates when every call succeeds *)







(** ** The names of the sheet after a reconciliation *)


(** * System labels *)

(** C8, as stated, fails: the listing that [getLabelMap] indexes is not
    filtered, so the lookup of INBOX returns the id of the system label;
    and the Create of INBOX/Receipts appends a row for the ancestor INBOX
    that carries the id of the system label. *)
Lemma system_label_is_looked_up_and_listed :
  labels world_inbox_child
  = [{| label_id := "INBOX"; label_name := "INBOX"; label_type := system |}]
  ∧ is_system_label {| label_id := "INBOX"; label_name := "INBOX"; label_type := system |}
    = true
  ∧ (getLabelId "INBOX" nominal_host world_inbox_child).1 = Normal (Some "INBOX")
  ∧ Sheet.value (sheet world_inbox_child) 3 NAME_COLUMN = ""
  ∧ Sheet.value (sheet (handleLabelChange 2 "" "INBOX/Receipts" nominal_host
                          world_inbox_child).2) 3 NAME_COLUMN = "INBOX"
  ∧ Sheet.value (sheet (handleLabelChange 2 "" "INBOX/Receipts" nominal_host
                          world_inbox_child).2) 3 LABEL_ID_COLUMN = "INBOX".
Proof. vm_compute. done. Qed.

(** C8, amended.  No operation of the core creates, deletes or re-tags a
    label of type system: every such label is kept, every label added has
    type user, and the threads that carry a name borne by system labels
    only stay the same.  The reconciliation changes a name cell only to
    the name of a listed label that passes its system test (type user, no
    reserved name, no CATEGORY_ prefix).  Lookups, however, go through
    the unfiltered listing: on a usable listing with well-formed ids every
    listed label, system or not, has its id returned. *)
Theorem system_labels_are_spared (h : Host) (w : World) :
  spares_system w (syncAllLabels h w).2
  ∧ spares_system w (onOpenWithFullPermissions h w).2
  ∧ (∀ row old new, spares_system w (handleLabelChange row old new h w).2)
  ∧ (∀ e, spares_system w (onEditTrigger e h w).2)
  ∧ (∀ row,
       Sheet.value (sheet (syncAllLabels h w).2) row NAME_COLUMN
       ≠ Sheet.value (sheet w) row NAME_COLUMN →
       ∃ l, l ∈ labels (syncAllLabels h w).2
            ∧ is_system_label l = false
            ∧ Sheet.value (sheet (syncAllLabels h w).2) row NAME_COLUMN = label_name l)
  ∧ (∀ name, (getLabelId name h w).1 = Normal (lookup_id (label_map_of h w) name))
  ∧ (listing_ok h = true → ids_nonempty (labels w) →
     ∀ l, l ∈ labels w → ∃ i, (getLabelId (label_name l) h w).1 = Normal (Some i)).
Proof.
  split; [apply (preserves_syncAllLabels spares_system)|].
  split; [apply (preserves_onOpenWithFullPermissions spares_system)|].
  split; [intros; apply (preserves_handleLabelChange spares_system)|].
  split; [intros; apply (preserves_onEditTrigger spares_system)|].
  split.
  { intros row Hrow.
    destruct (syncAllLabels_steps h w) as (w2 & w3 & Hrun2 & Hrun3 & Hrun).
    pose proof (preserves_sync_sheet_labels same_names (label_map_of h w)
                  (sheet_label_map (sheet w) (Sheet.lastRow (sheet w))) h
                  (record_console (getLabelMap_entry h w) w)) as Hsame.
    rewrite Hrun2 in Hsame. unfold same_names in Hsame.
    cbn [snd sheet record_console] in Hsame.
    destruct (adopt_remote_labels_spec
                (sheet_label_map (sheet w) (Sheet.lastRow (sheet w)))
                (Sheet.lastRow (sheet w)) h w2) as (w3' & Hw3 & _ & Hs3 & Hl3 & _).
    rewrite Hrun3 in Hw3. subst w3'.
    assert (sheet (syncAllLabels h w).2 = sheet w3 ∧ labels (syncAllLabels h w).2 = labels w3)
      as [Hs Hl].
    { rewrite Hrun. by destruct (faults h ListLabels). }
    rewrite Hs, Hl, Hs3 in *. rewrite <- (Hsame row) in Hrow.
    apply append_rows_changed in Hrow as (_ & l & Hin & Hv).
    exists l. rewrite Hl3. split; [|split; [|done]].
    - destruct (listing_ok h); [|by apply elem_of_nil in Hin].
      apply list_elem_of_filter in Hin. by destruct Hin.
    - destruct (listing_ok h); [|by apply elem_of_nil in Hin].
      apply list_elem_of_filter in Hin. by destruct Hin as [[? ?] ?]. }
  split; [intros; by rewrite getLabelId_eq|].
  intros Hok Hids l Hl. rewrite getLabelId_eq. unfold label_map_of. rewrite Hok.
  destruct (lookup_id_present (label_name l) (labels w) Hids) as (i & -> & _).
  { apply has_label_true. by apply list_elem_of_fmap_2. }
  by exists i.
Qed.

Lemma system_labels_are_spared_witness :
  listing_ok nominal_host = true
  ∧ ids_nonempty (labels world_old_in_use)
  ∧ spares_system world_old_in_use
      (handleLabelChange 2 "Old" "" nominal_host world_old_in_use).2
  ∧ ∃ i, (getLabelId "INBOX" nominal_host world_old_in_use).1 = Normal (Some i).
Proof.
  split; [reflexivity|]. split; [reflexivity|].
  destruct (system_labels_are_spared nominal_host world_old_in_use)
    as (_ & _ & Hrow & _ & _ & _ & Hlookup).
  split; [apply Hrow|].
  apply (Hlookup eq_refl eq_refl
           {| label_id := "INBOX"; label_name := "INBOX"; label_type := system |}).
  apply list_elem_of_here.
Defined.

(** * The reconciliation only adds *)




(** * Running the reconciliation twice *)

(** ** Labels only grow, by accepted names *)






(** ** Names that need no creation *)










(** ** Labels after the first reconciliation *)


Lemma lookup_id_empty name : lookup_id ∅ name = None.
Proof. unfold lookup_id. by rewrite lookup_empty. Qed.







(** ** The second reconciliation *)



(** * Ancestors *)

(** ** The ancestor paths that the code enumerates *)




Lemma split_cons c s : ∃ part parts, Js.split c s = part :: parts.
Proof.
  induction s as [|a s IH]; simpl; [by eexists _, _|].
  destruct (Ascii.eqb a c); [by eexists _, _|].
  destruct IH as (part & parts & ->). by eexists _, _.
Qed.

Lemma leading_parts_empty : leading_parts "" = [].
Proof. done. Qed.

Lemma leading_parts_slash rest : leading_parts (String "/" rest) = "" :: leading_parts rest.
Proof.
  unfold leading_parts. simpl.
  destruct (split_cons "/" rest) as (part & parts & ->). simpl.
  by rewrite Nat.sub_0_r.
Qed.







(** ** Ancestor paths are the proper ancestors, root first *)







(** ** Ancestors after a Create or a Rename *)


Lemma local_name_same_names w w' p : same_names w w' → local_name w p → local_name w' p.
Proof.
  intros Hsame (Hp & row & Hrow & Hv). split; [done|]. exists row. split; [done|].
  by rewrite Hsame.
Qed.







(** * The entry points and the errors of their collaborators *)

(** ** What the operations catch *)

Lemma try_catch_caught (m : Script unit) hd h w :
  (∀ msg h0 w0, (hd msg h0 w0).1 = Normal tt) → (try_catch m hd h w).1 = Normal tt.
Proof.
  intros Hhd. unfold try_catch. destruct (m h w) as [[[]|msg] w']; [done|apply Hhd].
Qed.

Lemma log_then_toast_normal text msg title timeout h w :
  ((run logError text; Sheet.toast msg title timeout) h w).1 = Normal tt.
Proof. done. Qed.

Lemma createLabel_normal row name h w : (createLabel row name h w).1 = Normal tt.
Proof.
  unfold createLabel. unfold bind at 1. rewrite logDebug_eq.
  apply try_catch_caught. intros. apply log_then_toast_normal.
Qed.

Lemma updateLabel_normal row old new h w : (updateLabel row old new h w).1 = Normal tt.
Proof.
  unfold updateLabel. unfold bind at 1. rewrite logDebug_eq.
  apply try_catch_caught. intros. apply log_then_toast_normal.
Qed.

Lemma deleteLabel_normal row name h w : (deleteLabel row name h w).1 = Normal tt.
Proof.
  unfold deleteLabel. unfold bind at 1. rewrite logDebug_eq.
  apply try_catch_caught. intros. apply log_then_toast_normal.
Qed.

Lemma handleLabelChange_normal row old new h w :
  (handleLabelChange row old new h w).1 = Normal tt.
Proof.
  unfold handleLabelChange. unfold bind at 1. rewrite logDebug_eq.
  repeat match goal with |- context [if ?b then _ else _] => destruct b end;
    [apply createLabel_normal|apply deleteLabel_normal|apply updateLabel_normal|done].
Qed.

(** X1. No error of a collaborator escapes the row-change entry points:
    on every host, also one on which every remote call raises, each of
    the Create, Rename and Delete operations, [handleLabelChange], the
    edit trigger and the open trigger return normally. *)
Theorem row_change_never_raises (h : Host) (w : World) :
  (∀ row name, (createLabel row name h w).1 = Normal tt)
  ∧ (∀ row old new, (updateLabel row old new h w).1 = Normal tt)
  ∧ (∀ row name, (deleteLabel row name h w).1 = Normal tt)
  ∧ (∀ row old new, (handleLabelChange row old new h w).1 = Normal tt)
  ∧ (∀ e, (onEditTrigger e h w).1 = Normal tt)
  ∧ (onOpenWithFullPermissions h w).1 = Normal tt.
Proof.
  split; [intros; apply createLabel_normal|].
  split; [intros; apply updateLabel_normal|].
  split; [intros; apply deleteLabel_normal|].
  split; [intros; apply handleLabelChange_normal|].
  split; intros; apply try_catch_caught; done.
Qed.

(** ** Edits that the trigger passes over *)

(** X2. The edit trigger passes over every edit outside the Labels
    sheet, in or above the header row, or outside the name column: nothing
    is logged and neither store is touched.  Every other edit is logged
    and handed to [handleLabelChange] with a missing old or new value read
    as the empty string. *)
Theorem onEditTrigger_filters_edits (e : EditEvent) (h : Host) (w : World) :
  (event_sheet e ≠ SHEET_NAME ∨ event_row e ≤ HEADER_ROW ∨ event_column e ≠ NAME_COLUMN →
   onEditTrigger e h w = (Normal tt, w))
  ∧ (event_sheet e = SHEET_NAME → HEADER_ROW < event_row e → event_column e = NAME_COLUMN →
     onEditTrigger e h w
     = handleLabelChange (event_row e) (or_empty (event_oldValue e))
         (or_empty (event_value e)) h
         (record_console
            (ConsoleLog ("[DEBUG] " +:+ "Change detected in Name column at row "
                         +:+ pretty (event_row e))) w)).
Proof.
  split.
  - intros Hskip. unfold onEditTrigger, try_catch.
    destruct (String.eqb (event_sheet e) SHEET_NAME) eqn:Hsheet; [|done]. cbn [negb].
    destruct (event_row e <=? HEADER_ROW) eqn:Hrow; [done|].
    destruct (event_column e =? NAME_COLUMN) eqn:Hcol; [|done].
    apply String.eqb_eq in Hsheet. apply Nat.leb_gt in Hrow. apply Nat.eqb_eq in Hcol.
    destruct Hskip as [?|[?|?]]; [done|lia|done].
  - intros Hsheet Hrow Hcol. unfold onEditTrigger, try_catch.
    apply String.eqb_eq in Hsheet. apply Nat.leb_gt in Hrow. apply Nat.eqb_eq in Hcol.
    rewrite Hsheet, Hrow, Hcol. cbn [negb]. unfold bind at 1. rewrite logDebug_eq.
    pose proof (handleLabelChange_normal (event_row e) (or_empty (event_oldValue e))
                  (or_empty (event_value e)) h
                  (record_console
                     (ConsoleLog ("[DEBUG] " +:+ "Change detected in Name column at row "
                                  +:+ pretty (event_row e))) w)) as Hn.
    destruct (handleLabelChange _ _ _ h _) as [[[]|msg] w']; [done|discriminate].
Qed.

Lemma onEditTrigger_filters_edits_witness :
  onEditTrigger {| event_sheet := "Labels"; event_row := 1; event_column := 2;
                   event_value := Some "Work"; event_oldValue := None |}
    nominal_host world_nested
  = (Normal tt, world_nested)
  ∧ labels (onEditTrigger {| event_sheet := "Labels"; event_row := 2; event_column := 2;
                             event_value := Some "A/B"; event_oldValue := None |}
              nominal_host world_nested).2
    = labels (handleLabelChange 2 "" "A/B" nominal_host world_nested).2.
Proof.
  destruct (onEditTrigger_filters_edits
              {| event_sheet := "Labels"; event_row := 1; event_column := 2;
                 event_value := Some "Work"; event_oldValue := None |}
              nominal_host world_nested) as [Hskip _].
  destruct (onEditTrigger_filters_edits
              {| event_sheet := "Labels"; event_row := 2; event_column := 2;
                 event_value := Some "A/B"; event_oldValue := None |}
              nominal_host world_nested) as [_ Hrun].
  split.
  - apply Hskip. right. left. reflexivity.
  - rewrite Hrun; [reflexivity|reflexivity|unfold HEADER_ROW; simpl; lia|reflexivity].
Defined.

(** ** A reconciliation while the listing is down *)






Global Instance keeps_toasts_preorder : PreOrder keeps_toasts.
Proof.
  split; [done|]. intros w1 w2 w3 H1 H2. unfold keeps_toasts in *. congruence.
Qed.




(** * Delete, Create and Rename at their edges *)

Lemma attempt_ok h c w : faults h c = None → Gmail.attempt c h w = (Normal tt, w).
Proof. intros H. unfold Gmail.attempt. by rewrite H. Qed.

Lemma attempt_fails h c w msg :
  faults h c = Some msg → Gmail.attempt c h w = (Thrown msg, w).
Proof. intros H. unfold Gmail.attempt. by rewrite H. Qed.

Lemma getUserLabelByName_ok h w name :
  faults h (GetUserLabelByName name) = None →
  Gmail.getUserLabelByName name h w
  = (Normal (if Gmail.has_user_label name (labels w) then Some name else None), w).
Proof. intros H. unfold Gmail.getUserLabelByName, bind. by rewrite attempt_ok. Qed.

Lemma search_label_ok h w name :
  faults h (Search ("label:" +:+ name)) = None →
  Gmail.search_label name h w = (Normal (Gmail.threads_of name (threads w)), w).
Proof. intros H. unfold Gmail.search_label, bind. by rewrite attempt_ok. Qed.

Lemma Gmail_deleteLabel_fails h w name msg :
  faults h (DeleteLabel name) = Some msg →
  Gmail.deleteLabel name h w = (Thrown msg, record_call (DeleteLabel name) w).
Proof.
  intros H. unfold Gmail.deleteLabel, bind, modify. by rewrite attempt_fails with (msg := msg).
Qed.

Lemma clearContent_eq row col h w :
  Sheet.clearContent row col h w = (Normal tt, set_sheet (delete (row, col)) w).
Proof. done. Qed.

Lemma untag_untagged name t : Gmail.tagged name t = false → Gmail.untag name t = t.
Proof.
  destruct t as [i ls]. unfold Gmail.tagged, Gmail.untag. simpl. intros H. f_equal.
  induction ls as [|l ls IH]; [done|]. simpl in H. apply orb_false_iff in H as [Hl Hls].
  rewrite filter_cons_True by (apply String.eqb_neq in Hl; congruence). by rewrite IH.
Qed.

Lemma untag_unused name (ts : list Thread) :
  Gmail.threads_of name ts = [] → Gmail.untag name <$> ts = ts.
Proof.
  unfold Gmail.threads_of. induction ts as [|t ts IH]; [done|]. intros H.
  destruct (Gmail.tagged name t) eqn:E.
  - rewrite filter_cons_True in H by done. done.
  - rewrite filter_cons_False in H by congruence. rewrite fmap_cons, IH by done.
    by rewrite untag_untagged.
Qed.

(** ** Delete *)

(** X4. A delete intent on a user label that no thread carries goes
    through: on a host whose calls succeed, the one mutating remote call is
    the deletion, the user label of that name is gone while every other
    label and every thread stay as they were, the id cell of the row is
    cleared and its name cell is not written, and one toast says so. *)
Theorem delete_removes_unused_label (h : Host) (w : World) (row : nat) (labelName : string) :
  healthy h →
  ids_nonempty (labels w) →
  labelName ≠ "" →
  Gmail.has_user_label labelName (labels w) = true →
  Gmail.threads_of labelName (threads w) = [] →
  ∃ w',
    handleLabelChange row labelName "" h w = (Normal tt, w')
    ∧ labels w'
      = filter (λ l, (Gmail.named labelName l && Gmail.is_user l) = false) (labels w)
    ∧ Gmail.has_user_label labelName (labels w') = false
    ∧ threads w' = threads w
    ∧ calls w' = calls w ++ [DeleteLabel labelName]
    ∧ sheet w' = delete (row, LABEL_ID_COLUMN) (sheet w)
    ∧ Sheet.value (sheet w') row LABEL_ID_COLUMN = ""
    ∧ toast_message <$> toasts w'
      = (toast_message <$> toasts w)
        ++ ["The label " +:+ quoted labelName +:+ " has been deleted from Gmail."].
Proof.
  intros Hh Hids Hname Huser Hunused.
  rewrite handleLabelChange_delete by done. unfold bind at 1. rewrite logDebug_eq.
  unfold deleteLabel. unfold bind at 1. rewrite logDebug_eq. unfold try_catch.
  set (w0 := record_console _ (record_console _ w)).
  destruct (getLabelId_present labelName h w0 Hh Hids (has_user_label_has_label _ _ Huser))
    as (i & Hrun & _).
  unfold bind at 1. rewrite Hrun.
  unfold bind at 1. rewrite getUserLabelByName_healthy by done. proj.
  change (labels w0) with (labels w). rewrite Huser.
  unfold bind at 1. rewrite search_label_healthy by done. proj.
  change (threads w0) with (threads w). rewrite Hunused. cbn [length Nat.ltb Nat.leb].
  unfold bind at 1. rewrite deleteLabel_healthy by done.
  unfold bind. rewrite clearContent_eq, logDebug_eq, toast_eq.
  eexists. split; [reflexivity|]. proj. subst w0. proj.
  split; [done|]. split; [apply has_user_label_dropped|].
  split; [by apply untag_unused|]. split; [done|]. split; [done|].
  split; [apply value_delete|]. by rewrite fmap_app.
Qed.

Lemma delete_removes_unused_label_witness :
  ∃ w',
    handleLabelChange 2 "A" "" nominal_host world_into_child = (Normal tt, w')
    ∧ labels w' = []
    ∧ calls w' = [DeleteLabel "A"]
    ∧ Sheet.value (sheet w') 2 LABEL_ID_COLUMN = "".
Proof.
  destruct (delete_removes_unused_label nominal_host world_into_child 2 "A")
    as (w' & Hrun & Hl & _ & _ & Hc & _ & Hid & _).
  - exact nominal_host_healthy.
  - reflexivity.
  - discriminate.
  - reflexivity.
  - reflexivity.
  - exists w'. split; [exact Hrun|]. split; [rewrite Hl; reflexivity|].
    split; [exact Hc|exact Hid].
Defined.

(** X5. A delete intent on a name that has no user label, whether the
    account does not know the name or knows it as a system label, only
    clears the id cell of the row: on every host that lets the handle
    lookup through, no label and no thread changes, no mutating remote
    call is issued and no toast is shown. *)
Theorem delete_of_unknown_label_clears_id (h : Host) (w : World) (row : nat)
    (labelName : string) :
  labelName ≠ "" →
  Gmail.has_user_label labelName (labels w) = false →
  faults h (GetUserLabelByName labelName) = None →
  ∃ w',
    handleLabelChange row labelName "" h w = (Normal tt, w')
    ∧ labels w' = labels w
    ∧ threads w' = threads w
    ∧ calls w' = calls w
    ∧ toasts w' = toasts w
    ∧ sheet w' = delete (row, LABEL_ID_COLUMN) (sheet w).
Proof.
  intros Hname Huser Hhandle.
  rewrite handleLabelChange_delete by done. unfold bind at 1. rewrite logDebug_eq.
  unfold deleteLabel. unfold bind at 1. rewrite logDebug_eq. unfold try_catch.
  unfold bind at 1. rewrite getLabelId_eq.
  destruct (lookup_id _ labelName) as [i|].
  - unfold bind at 1. rewrite getUserLabelByName_ok by done. proj. rewrite Huser.
    unfold bind. rewrite logDebug_eq, clearContent_eq. by eexists.
  - unfold bind. rewrite logDebug_eq, clearContent_eq. by eexists.
Qed.

Lemma delete_of_unknown_label_clears_id_witness :
  ∃ w',
    handleLabelChange 2 "INBOX" "" nominal_host world_inbox_renamed = (Normal tt, w')
    ∧ labels w' = labels world_inbox_renamed
    ∧ threads w' = threads world_inbox_renamed
    ∧ Sheet.value (sheet w') 2 LABEL_ID_COLUMN = "".
Proof.
  destruct (delete_of_unknown_label_clears_id nominal_host world_inbox_renamed 2 "INBOX")
    as (w' & Hrun & Hl & Ht & _ & _ & Hs).
  - discriminate.
  - reflexivity.
  - reflexivity.
  - exists w'. split; [exact Hrun|]. split; [exact Hl|]. split; [exact Ht|].
    rewrite Hs. apply value_delete.
Defined.

(** X6. When the deletion call itself raises, the error is caught and
    reported: the label, the threads and the sheet stay as they were (the
    id cell keeps the id, the emptied name cell is not restored), the
    refused call is the only one issued, and the toast carries the
    message of the error. *)
Theorem delete_error_is_reported (h : Host) (w : World) (row : nat) (labelName msg : string) :
  labelName ≠ "" →
  is_Some (lookup_id (label_map_of h w) labelName) →
  Gmail.has_user_label labelName (labels w) = true →
  Gmail.threads_of labelName (threads w) = [] →
  faults h (GetUserLabelByName labelName) = None →
  faults h (Search ("label:" +:+ labelName)) = None →
  faults h (DeleteLabel labelName) = Some msg →
  ∃ w',
    handleLabelChange row labelName "" h w = (Normal tt, w')
    ∧ labels w' = labels w
    ∧ threads w' = threads w
    ∧ sheet w' = sheet w
    ∧ calls w' = calls w ++ [DeleteLabel labelName]
    ∧ toasts w'
      = toasts w ++ [{| toast_message := "Error deleting label: " +:+ msg;
                        toast_title := Some "Error"; toast_timeout := Some 10 |}].
Proof.
  intros Hname [i Hid] Huser Hunused Hhandle Hsearch Hdelete.
  rewrite handleLabelChange_delete by done. unfold bind at 1. rewrite logDebug_eq.
  unfold deleteLabel. unfold bind at 1. rewrite logDebug_eq. unfold try_catch.
  unfold bind at 1. rewrite getLabelId_eq, !label_map_of_console, Hid.
  unfold bind at 1. rewrite getUserLabelByName_ok by done. proj. rewrite Huser.
  unfold bind at 1. rewrite search_label_ok by done. proj. rewrite Hunused.
  cbn [length Nat.ltb Nat.leb].
  unfold bind at 1. rewrite Gmail_deleteLabel_fails with (msg := msg) by done.
  unfold bind. rewrite logError_eq, toast_eq. by eexists.
Qed.

Lemma delete_error_is_reported_witness :
  ∃ w',
    handleLabelChange 2 "A" "" readonly_host world_into_child = (Normal tt, w')
    ∧ labels w' = labels world_into_child
    ∧ sheet w' = sheet world_into_child
    ∧ calls w' = [DeleteLabel "A"]
    ∧ toast_message <$> toasts w' = ["Error deleting label: Permission denied"].
Proof.
  destruct (delete_error_is_reported readonly_host world_into_child 2 "A" "Permission denied")
    as (w' & Hrun & Hl & _ & Hs & Hc & Ht).
  - discriminate.
  - exists "Label_1". reflexivity.
  - reflexivity.
  - reflexivity.
  - reflexivity.
  - reflexivity.
  - reflexivity.
  - exists w'. split; [exact Hrun|]. split; [exact Hl|]. split; [exact Hs|].
    split; [exact Hc|]. rewrite Ht. reflexivity.
Defined.

(** ** Create *)

Lemma lookup_id_Some_listed h w name i :
  lookup_id (label_map_of h w) name = Some i →
  listing_ok h = true ∧ ∃ l, l ∈ labels w ∧ label_name l = name ∧ label_id l = i.
Proof.
  unfold label_map_of. destruct (listing_ok h); [|by rewrite lookup_id_empty].
  intros H. split; [done|]. apply build_label_map_Some.
  unfold lookup_id in H. destruct (build_label_map (labels w) !! name) as [j|]; [|done].
  by destruct (Js.truthy j); simplify_eq.
Qed.

(** X7. The Create of a name that the listing already knows creates
    nothing: on every host, the id that the lookup returned (the id of a
    listed label of that name) is written into the id cell of the row, no
    other cell, no label and no thread changes, no mutating remote call is
    issued, and one toast says that the label already exists. *)
Theorem create_adopts_existing_id (h : Host) (w : World) (row : nat) (new i : string) :
  new ≠ "" →
  lookup_id (label_map_of h w) new = Some i →
  ∃ w',
    handleLabelChange row "" new h w = (Normal tt, w')
    ∧ sheet w' = <[(row, LABEL_ID_COLUMN) := i]> (sheet w)
    ∧ labels w' = labels w
    ∧ threads w' = threads w
    ∧ calls w' = calls w
    ∧ toasts w'
      = toasts w ++ [{| toast_message := "Label " +:+ quoted new
                                         +:+ " already exists in Gmail.";
                        toast_title := Some "Info"; toast_timeout := Some 3 |}]
    ∧ ∃ l, l ∈ labels w ∧ label_name l = new ∧ label_id l = i.
Proof.
  intros Hnew Hid. rewrite handleLabelChange_create by done.
  unfold bind at 1. rewrite logDebug_eq.
  unfold createLabel. unfold bind at 1. rewrite logDebug_eq. unfold try_catch.
  unfold bind at 1. rewrite getLabelId_eq, !label_map_of_console, Hid.
  unfold bind. rewrite logDebug_eq, setValue_eq, toast_eq.
  eexists. split; [reflexivity|]. proj. do 5 (split; [done|]).
  by apply lookup_id_Some_listed in Hid as [_ ?].
Qed.

Lemma create_adopts_existing_id_witness :
  ∃ w',
    handleLabelChange 2 "" "A/B" nominal_host world_orphan = (Normal tt, w')
    ∧ Sheet.value (sheet w') 2 LABEL_ID_COLUMN = "Label_5"
    ∧ labels w' = labels world_orphan
    ∧ calls w' = [].
Proof.
  destruct (create_adopts_existing_id nominal_host world_orphan 2 "A/B" "Label_5")
    as (w' & Hrun & Hs & Hl & _ & Hc & _).
  - discriminate.
  - reflexivity.
  - exists w'. split; [exact Hrun|]. split; [rewrite Hs; apply value_insert|].
    split; [exact Hl|exact Hc].
Defined.



(** ** Rename *)



(** ** The threads after a Rename *)


Lemma NoDup_fmap_elem_of {A B} (f : A → B) (l : list A) x y :
  NoDup (f <$> l) → x ∈ l → y ∈ l → f x = f y → x = y.
Proof.
  intros Hnd [i Hi]%list_elem_of_lookup [j Hj]%list_elem_of_lookup Heq.
  assert (i = j) as ->.
  { eapply NoDup_lookup; [exact Hnd| |].
    - by rewrite list_lookup_fmap, Hi.
    - rewrite list_lookup_fmap, Hj. simpl. by rewrite Heq. }
  congruence.
Qed.




(** * The two indexes *)

(** ** The index of the sheet *)




(** ** The index of the account *)




(** * One ancestor for each separator *)

Lemma length_split name : length (Js.split "/" name) = S (separators name).
Proof.
  induction name as [|a rest IH]; [done|]. simpl.
  destruct (Ascii.eqb a "/"); simpl; [by rewrite IH|].
  destruct (split_cons "/" rest) as (part & parts & Heq). rewrite Heq in *. simpl in *. lia.
Qed.

Lemma length_parent_scan acc parts : length (parent_scan acc parts) = length parts.
Proof.
  revert acc. induction parts as [|part parts IH]; intros acc; simpl; [done|]. by rewrite IH.
Qed.

Lemma separators_none name : separators name = 0 ↔ Js.includes "/" name = false.
Proof.
  induction name as [|a rest IH]; [done|]. simpl.
  destruct (Ascii.eqb a "/"); simpl; [split; [lia|done]|exact IH].
Qed.

(** X13. The hierarchy loop visits one ancestor path for each separator
    of the name, whatever the segments are (an empty segment between two
    separators or after the last one counts): a name has no ancestor
    exactly when it has no separator; and for a name that begins with the
    separator the first path visited is the empty one, the following ones
    being those of the name without that first character. *)
Theorem parentPaths_one_per_separator (name : string) :
  length (parentPaths name) = separators name
  ∧ (parentPaths name = [] ↔ Js.includes "/" name = false)
  ∧ parentPaths (String "/" name) = "" :: parentPaths name.
Proof.
  assert (length (parentPaths name) = separators name) as Hlen.
  { unfold parentPaths. cbv zeta. rewrite length_parent_scan, length_take, length_split. lia. }
  split; [done|]. split.
  - rewrite <- separators_none, <- Hlen. by destruct (parentPaths name).
  - unfold parentPaths. cbv zeta. fold (leading_parts (String "/" name)).
    fold (leading_parts name). by rewrite leading_parts_slash.
Qed.

(** * The ids that the reconciliation writes *)

(** ** Labels are added under names that are new *)




(** ** Step 2 when every call succeeds *)





(** ** The rows that the reconciliation appends *)



(** * The script project *)

(** ** Calls that the project does not refuse *)

Lemma project_call_ok p s c :
  project_faults p c = None → project_call c p s = (Normal tt, s).
Proof. intros Hok. unfold project_call. by rewrite Hok. Qed.

Lemma project_call_refused p s c msg :
  project_faults p c = Some msg → project_call c p s = (Thrown msg, s).
Proof. intros Hc. unfold project_call. by rewrite Hc. Qed.

Lemma getProjectTriggers_ok p s :
  project_faults p GetProjectTriggers = None →
  ScriptApp.getProjectTriggers p s = (Normal (project_triggers s), s).
Proof.
  intros Hok. unfold ScriptApp.getProjectTriggers, app_bind.
  by rewrite project_call_ok.
Qed.

Lemma deleteTrigger_ok p s t :
  project_faults p (DeleteTrigger (trigger_uid t)) = None →
  ScriptApp.deleteTrigger t p s
  = (Normal tt, set_triggers (filter (λ t', trigger_uid t' ≠ trigger_uid t)) s).
Proof.
  intros Hok. unfold ScriptApp.deleteTrigger, app_bind.
  by rewrite project_call_ok.
Qed.

Lemma newTrigger_ok p s handler event :
  project_faults p (NewTrigger handler event) = None →
  ScriptApp.newTrigger handler event p s
  = (Normal tt,
     bump_next_trigger
       (set_triggers (λ l, l ++ [{| trigger_uid := next_trigger s;
                                    trigger_handler := handler;
                                    trigger_event := event |}]) s)).
Proof.
  intros Hok. unfold ScriptApp.newTrigger, app_bind.
  by rewrite project_call_ok.
Qed.

Lemma getAutoSyncEnabled_ok p s :
  project_faults p (GetProperty "autoSyncEnabled") = None →
  Project.getAutoSyncEnabled p s = (Normal (stored_flag s), s).
Proof.
  intros Hok. unfold Project.getAutoSyncEnabled, PropertiesService.getProperty, app_bind.
  by rewrite project_call_ok.
Qed.

Lemma setProperty_ok p s key value :
  project_faults p (SetProperty key value) = None →
  PropertiesService.setProperty key value p s
  = (Normal tt, set_properties (insert key value) s).
Proof.
  intros Hok. unfold PropertiesService.setProperty, app_bind.
  by rewrite project_call_ok.
Qed.

Lemma addToUi_ok p s name items :
  project_faults p (AddToUi name) = None →
  SpreadsheetApp.addToUi name items p s = (Normal tt, set_menus (insert name items) s).
Proof.
  intros Hok. unfold SpreadsheetApp.addToUi, app_bind.
  by rewrite project_call_ok.
Qed.

(** ** Scripts over the two stores leave the project alone *)

Lemma same_project_refl s : same_project s s.
Proof. by repeat split. Qed.

Lemma same_project_trans s1 s2 s3 :
  same_project s1 s2 → same_project s2 s3 → same_project s1 s3.
Proof.
  unfold same_project. intros (?&?&?&?&?&?&?) (?&?&?&?&?&?&?).
  repeat split; congruence.
Qed.

Lemma lift_same_project {A} (m : Script A) p s : same_project s (lift m p s).2.
Proof. unfold lift. destruct (m _ _). by repeat split. Qed.

Lemma lift_host {A} (m : Script A) p s : host_of p (lift m p s).2 = host_of p s.
Proof. unfold lift. by destruct (m _ _). Qed.

Lemma lift_eq {A} (m : Script A) p s :
  lift m p s = ((m (host_of p s) (stores s)).1,
                set_stores (λ _, (m (host_of p s) (stores s)).2) s).
Proof. unfold lift. by destruct (m _ _). Qed.

(** ** The menu refresh *)

Lemma host_of_set_stores p f s : host_of p (set_stores f s) = host_of p s.
Proof. done. Qed.

Lemma set_stores_set_stores f g s :
  set_stores f (set_stores g s) = set_stores (λ w, f (g w)) s.
Proof. done. Qed.

Ltac lift_step :=
  rewrite lift_eq, ?host_of_set_stores, ?logError_eq, ?toast_eq, ?logDebug_eq;
  cbn [fst snd stores set_stores].

(** The auto-sync part of [onOpenWithFullPermissions], within the project. *)
Lemma auto_sync_part p s :
  has_labels_sheet s = true →
  project_ok p →
  ((do enabled <- Project.getAutoSyncEnabled;
    run app_when enabled
          (app_try_catch
             (do results <- on_labels_sheet "getLastRow" syncAllLabels;
              lift (showSyncResults results))
             (λ message,
                run lift (logError ("Auto sync failed: " +:+ message));
                lift (Sheet.toast "Auto sync failed - check logs" (Some "Error") (Some 6))));
    lift (logDebug "Full permissions menu created successfully"))%app) p s
  = (Normal tt, set_stores (λ _, (onOpenWithFullPermissions (host_of p s) (stores s)).2) s).
Proof.
  intros Hsheet Hok.
  unfold onOpenWithFullPermissions, try_catch, bind at 1, getAutoSyncEnabled.
  unfold app_bind at 1. rewrite getAutoSyncEnabled_ok by done.
  change (autoSyncEnabled (host_of p s)) with (stored_flag s).
  destruct (stored_flag s) eqn:Hflag; cbn [when app_when].
  - unfold on_labels_sheet, SpreadsheetApp.getSheetByName, app_inspect, app_try_catch, app_bind.
    cbn beta. rewrite Hsheet, String.eqb_refl. cbn [andb].
    unfold bind, try_catch.
    rewrite (lift_eq syncAllLabels).
    destruct (syncAllLabels (host_of p s) (stores s)) as [[r|msg] w]; cbn [fst snd].
    + rewrite (lift_eq (showSyncResults r)), host_of_set_stores.
      cbn [stores set_stores].
      destruct (showSyncResults r (host_of p s) w) as [[[]|msg] w']; cbn [fst snd].
      * by rewrite lift_eq, !logDebug_eq.
      * by rewrite !lift_eq, !host_of_set_stores, !logError_eq, !toast_eq, !logDebug_eq.
    + by rewrite !lift_eq, !host_of_set_stores, !logError_eq, !toast_eq, !logDebug_eq.
  - unfold bind, app_bind, app_ret, ret. cbn beta iota. by rewrite lift_eq, !logDebug_eq.
Qed.

Lemma auto_sync_part_without_sheet p s :
  has_labels_sheet s = false →
  project_ok p →
  ((do enabled <- Project.getAutoSyncEnabled;
    run app_when enabled
          (app_try_catch
             (do results <- on_labels_sheet "getLastRow" syncAllLabels;
              lift (showSyncResults results))
             (λ message,
                run lift (logError ("Auto sync failed: " +:+ message));
                lift (Sheet.toast "Auto sync failed - check logs" (Some "Error") (Some 6))));
    lift (logDebug "Full permissions menu created successfully"))%app) p s
  = (Normal tt,
     set_stores (λ w,
       record_console (ConsoleLog "[DEBUG] Full permissions menu created successfully")
         (if stored_flag s then
            record_toast {| toast_message := "Auto sync failed - check logs";
                            toast_title := Some "Error"; toast_timeout := Some 6 |}
              (record_console
                 (ConsoleError "[ERROR] Auto sync failed: Cannot read properties of null (reading 'getLastRow')")
                 w)
          else w)) s).
Proof.
  intros Hsheet Hok.
  unfold app_bind at 1. rewrite getAutoSyncEnabled_ok by done.
  destruct (stored_flag s) eqn:Hflag; cbn [app_when].
  - unfold on_labels_sheet, SpreadsheetApp.getSheetByName, app_inspect, app_try_catch, app_bind, app_throw.
    cbn beta. rewrite Hsheet, String.eqb_refl. cbn [andb].
    by repeat lift_step.
  - unfold app_bind, app_ret. cbn beta iota. by repeat lift_step.
Qed.

Lemma getUi_ok p s : project_faults p GetUi = None → SpreadsheetApp.getUi p s = (Normal tt, s).
Proof. apply project_call_ok. Qed.

Lemma onOpenWithFullPermissions_ok p s :
  project_ok p →
  has_labels_sheet s = true →
  Project.onOpenWithFullPermissions p s
  = (Normal tt,
     set_stores (λ _, (onOpenWithFullPermissions (host_of p s) (stores s)).2)
       (set_menus (insert "Gmail Labels" (full_menu s)) s)).
Proof.
  intros Hok Hsheet. unfold Project.onOpenWithFullPermissions.
  unfold app_bind at 1. rewrite getUi_ok by done.
  unfold app_try_catch.
  unfold app_bind at 1. rewrite getProjectTriggers_ok by done.
  unfold app_bind at 1. rewrite getAutoSyncEnabled_ok by done.
  unfold app_bind at 1. rewrite addToUi_ok by done.
  by rewrite auto_sync_part.
Qed.

Lemma onOpenWithFullPermissions_without_sheet p s :
  project_ok p →
  has_labels_sheet s = false →
  Project.onOpenWithFullPermissions p s
  = (Normal tt,
     set_stores (λ w,
       record_console (ConsoleLog "[DEBUG] Full permissions menu created successfully")
         (if stored_flag s then
            record_toast {| toast_message := "Auto sync failed - check logs";
                            toast_title := Some "Error"; toast_timeout := Some 6 |}
              (record_console
                 (ConsoleError "[ERROR] Auto sync failed: Cannot read properties of null (reading 'getLastRow')")
                 w)
          else w))
       (set_menus (insert "Gmail Labels" (full_menu s)) s)).
Proof.
  intros Hok Hsheet. unfold Project.onOpenWithFullPermissions.
  unfold app_bind at 1. rewrite getUi_ok by done.
  unfold app_try_catch.
  unfold app_bind at 1. rewrite getProjectTriggers_ok by done.
  unfold app_bind at 1. rewrite getAutoSyncEnabled_ok by done.
  unfold app_bind at 1. rewrite addToUi_ok by done.
  by rewrite auto_sync_part_without_sheet.
Qed.

(** Whatever the sheet, the refresh installs the menu and changes nothing
    else of the project. *)
Lemma onOpenWithFullPermissions_refreshes p s :
  project_ok p →
  ∃ w, Project.onOpenWithFullPermissions p s
       = (Normal tt, set_stores (λ _, w) (set_menus (insert "Gmail Labels" (full_menu s)) s)).
Proof.
  intros Hok. destruct (has_labels_sheet s) eqn:Hsheet.
  - eexists. by apply onOpenWithFullPermissions_ok.
  - eexists. rewrite onOpenWithFullPermissions_without_sheet by done. reflexivity.
Qed.

(** * Installable triggers *)

(** ** Deleting by identifier *)

Lemma filter_ext_in {A} (P Q : A → Prop) `{!∀ x, Decision (P x), !∀ x, Decision (Q x)}
    (l : list A) :
  (∀ x, x ∈ l → P x ↔ Q x) → filter P l = filter Q l.
Proof.
  induction l as [|a l IH]; intros Hiff; [done|].
  assert (filter P l = filter Q l) as Hl.
  { apply IH. intros x Hx. apply Hiff. by apply list_elem_of_further. }
  destruct (decide (P a)) as [Ha|Ha].
  - rewrite !filter_cons_True; [by rewrite Hl|..]; [|done].
    apply Hiff; [apply list_elem_of_here|done].
  - rewrite !filter_cons_False; [done|..]; [|done].
    intros HQ. apply Ha. apply Hiff; [apply list_elem_of_here|done].
Qed.

Lemma delete_triggers_filter doomed ts :
  delete_triggers doomed ts
  = filter (λ t, trigger_uid t ∉ trigger_uid <$> doomed) ts.
Proof.
  revert ts. induction doomed as [|d doomed IH]; intros ts.
  - simpl. symmetry. induction ts as [|t ts IHts]; [done|].
    rewrite filter_cons_True; [by rewrite IHts|]. apply not_elem_of_nil.
  - change (delete_triggers (d :: doomed) ts)
      with (delete_triggers doomed (filter (λ t', trigger_uid t' ≠ trigger_uid d) ts)).
    rewrite IH, list_filter_filter. apply list_filter_iff. intros t.
    rewrite fmap_cons, not_elem_of_cons. tauto.
Qed.

(** With distinct identifiers, deleting the selected triggers of a list
    from that list leaves the others, in their order. *)
Lemma delete_selected (P : Trigger → Prop) `{!∀ t, Decision (P t)} (l : list Trigger) :
  NoDup (trigger_uid <$> l) →
  delete_triggers (filter P l) l = filter (λ t, ¬ P t) l.
Proof.
  intros Hnd. rewrite delete_triggers_filter. apply filter_ext_in. intros t Ht.
  split.
  - intros Hnot HP. apply Hnot. apply list_elem_of_fmap_2. by apply list_elem_of_filter.
  - intros HP [t' [Huid [HP' Ht']%list_elem_of_filter]]%list_elem_of_fmap.
    assert (t = t') as -> by (by eapply (NoDup_fmap_elem_of trigger_uid)).
    done.
Qed.

Lemma set_triggers_same s : set_triggers (λ _, project_triggers s) s = s.
Proof. by destruct s. Qed.

Lemma NoDup_fmap_filter {A B} (f : A → B) (P : A → Prop) `{!∀ x, Decision (P x)}
    (l : list A) :
  NoDup (f <$> l) → NoDup (f <$> filter P l).
Proof.
  induction l as [|a l IH]; [done|]. rewrite fmap_cons, NoDup_cons. intros [Ha Hl].
  destruct (decide (P a)).
  - rewrite filter_cons_True by done. rewrite fmap_cons, NoDup_cons. split; [|by apply IH].
    intros [x [Hx [_ Hin]%list_elem_of_filter]]%list_elem_of_fmap.
    apply Ha. rewrite Hx. by apply list_elem_of_fmap_2.
  - rewrite filter_cons_False by done. by apply IH.
Qed.

(** ** The loop of [createInstallableTrigger] *)

Lemma delete_handler_loop p (handler : string) l s :
  (∀ uid, project_faults p (DeleteTrigger uid) = None) →
  app_for_each l (λ trigger,
      app_when (String.eqb (trigger_handler trigger) handler)
               (ScriptApp.deleteTrigger trigger)) p s
  = (Normal tt,
     set_triggers (λ _, delete_triggers (filter (λ t, trigger_handler t = handler) l)
                                        (project_triggers s)) s).
Proof.
  intros Hok. revert s. induction l as [|t l IH]; intros s.
  - simpl. unfold app_ret. by rewrite set_triggers_same.
  - cbn [app_for_each]. unfold app_bind at 1.
    destruct (String.eqb_spec (trigger_handler t) handler) as [Heq|Hne]; cbn [app_when].
    + rewrite deleteTrigger_ok by done. rewrite IH.
      by rewrite filter_cons_True by done.
    + unfold app_ret. rewrite IH. by rewrite filter_cons_False by done.
Qed.

(** ** The loop of [toggleEditTrigger] *)

Lemma delete_on_edit_loop p l (found : bool) s :
  (∀ uid, project_faults p (DeleteTrigger uid) = None) →
  app_fold_each l found (λ triggerExists trigger,
      if Project.is_on_edit trigger then
        (run ScriptApp.deleteTrigger trigger; app_ret true)%app
      else app_ret triggerExists) p s
  = (Normal (found || existsb Project.is_on_edit l),
     set_triggers (λ _, delete_triggers (filter (λ t, Project.is_on_edit t = true) l)
                                        (project_triggers s)) s).
Proof.
  intros Hok. revert found s. induction l as [|t l IH]; intros found s.
  - simpl. unfold app_ret. by rewrite set_triggers_same, orb_false_r.
  - cbn [app_fold_each existsb]. unfold app_bind at 1.
    destruct (Project.is_on_edit t) eqn:Ht.
    + unfold app_bind at 1. rewrite deleteTrigger_ok by done. unfold app_ret.
      rewrite IH. rewrite filter_cons_True by done. by rewrite orb_true_r.
    + unfold app_ret. rewrite IH. rewrite filter_cons_False by (by rewrite Ht).
      done.
Qed.

(** ** Well-formed trigger lists *)

Ltac sess :=
  cbn [stores has_labels_sheet project_triggers next_trigger user_properties menus alerts
       hidden_columns set_stores set_triggers bump_next_trigger set_properties set_menus
       record_alert record_hidden].

Lemma triggers_wf_filter (P : Trigger → Prop) `{!∀ t, Decision (P t)} s s' :
  triggers_wf s →
  project_triggers s' = filter P (project_triggers s) →
  next_trigger s' = next_trigger s →
  triggers_wf s'.
Proof.
  intros [Hnd Hlt] Hts Hnext. unfold triggers_wf. rewrite Hts, Hnext. split.
  - by apply NoDup_fmap_filter.
  - intros t [_ Ht]%list_elem_of_filter. by apply Hlt.
Qed.

Lemma triggers_wf_snoc (P : Trigger → Prop) `{!∀ t, Decision (P t)} s s' handler event :
  triggers_wf s →
  project_triggers s'
  = filter P (project_triggers s)
    ++ [{| trigger_uid := next_trigger s; trigger_handler := handler;
           trigger_event := event |}] →
  next_trigger s' = S (next_trigger s) →
  triggers_wf s'.
Proof.
  intros [Hnd Hlt] Hts Hnext. unfold triggers_wf. rewrite Hts, Hnext. split.
  - rewrite fmap_app, NoDup_app. split; [by apply NoDup_fmap_filter|]. split.
    + intros uid [t [-> [_ Ht]%list_elem_of_filter]]%list_elem_of_fmap.
      simpl. rewrite list_elem_of_singleton. apply Hlt in Ht. lia.
    + simpl. apply NoDup_singleton.
  - intros t [[_ Ht]%list_elem_of_filter| ->%list_elem_of_singleton]%elem_of_app.
    + apply Hlt in Ht. lia.
    + simpl. lia.
Qed.

Lemma sample_triggers_wf w present properties :
  triggers_wf (session_of w present sample_triggers properties).
Proof.
  split.
  - simpl. apply (bool_decide_unpack _). reflexivity.
  - simpl. intros t Ht.
    repeat (apply elem_of_cons in Ht as [->|Ht]); simpl; try lia.
    by apply elem_of_nil in Ht.
Qed.

(** ** createInstallableTrigger *)

(** X16. [createInstallableTrigger] leaves exactly one open trigger for
    [onOpenWithFullPermissions].  When the project refuses no call and the
    triggers carry distinct identifiers, the call returns [true]; the
    triggers afterwards are those of every other handler, in their order,
    followed by one new open trigger for [onOpenWithFullPermissions]; the
    identifiers are still distinct; and the only other change is one line
    on the console. *)
Theorem createInstallableTrigger_leaves_one_trigger (p : Platform) (s : Session) :
  project_ok p →
  triggers_wf s →
  ∃ s', Project.createInstallableTrigger p s = (Normal true, s')
  ∧ project_triggers s'
    = filter (λ t, trigger_handler t ≠ "onOpenWithFullPermissions") (project_triggers s)
      ++ [{| trigger_uid := next_trigger s;
             trigger_handler := "onOpenWithFullPermissions";
             trigger_event := ON_OPEN |}]
  ∧ triggers_wf s'
  ∧ stores s' = record_console (ConsoleLog "Installable trigger created successfully") (stores s)
  ∧ user_properties s' = user_properties s
  ∧ menus s' = menus s.
Proof.
  intros Hok Hwf. unfold Project.createInstallableTrigger, app_try_catch.
  unfold app_bind at 1. rewrite getProjectTriggers_ok by done.
  unfold app_bind at 1. rewrite delete_handler_loop by (intros; apply Hok).
  unfold app_bind at 1. rewrite newTrigger_ok by done.
  unfold app_bind at 1, console_log. rewrite lift_eq. cbn [fst snd]. unfold app_ret.
  eexists. split; [reflexivity|]. sess.
  pose proof (delete_selected (λ t, trigger_handler t = "onOpenWithFullPermissions")
                (project_triggers s) (proj1 Hwf)) as Hleft.
  split; [by rewrite Hleft|]. split; [|done].
  eapply (triggers_wf_snoc (λ t, trigger_handler t ≠ "onOpenWithFullPermissions"));
    [exact Hwf| |]; sess; [|done].
  by rewrite Hleft.
Qed.

Lemma createInstallableTrigger_leaves_one_trigger_witness :
  project_ok nominal_platform
  ∧ triggers_wf (session_of (world_of [header] [] []) true sample_triggers [])
  ∧ project_triggers
      (Project.createInstallableTrigger nominal_platform
         (session_of (world_of [header] [] []) true sample_triggers [])).2
    = [{| trigger_uid := 2; trigger_handler := "onEditTrigger"; trigger_event := ON_EDIT |};
       {| trigger_uid := 3; trigger_handler := "auditEdits"; trigger_event := ON_EDIT |};
       {| trigger_uid := 4; trigger_handler := "onOpenWithFullPermissions";
          trigger_event := ON_OPEN |}].
Proof.
  split; [by intros c|]. split; [apply sample_triggers_wf|].
  destruct (createInstallableTrigger_leaves_one_trigger nominal_platform
              (session_of (world_of [header] [] []) true sample_triggers [])
              (λ _, eq_refl) (sample_triggers_wf _ _ _)) as (s' & Hrun & Hts & _).
  rewrite Hrun. cbn [snd]. rewrite Hts. reflexivity.
Defined.

(** X17. [createInstallableTrigger] is not atomic.  When the project lists
    and deletes triggers but refuses to create one, the call raises the
    error of the refusal after writing it to the console, and the open
    triggers of [onOpenWithFullPermissions] that existed before are gone:
    the triggers left are those of the other handlers. *)
Theorem createInstallableTrigger_refused_after_deleting
    (p : Platform) (s : Session) (message : string) :
  project_faults p GetProjectTriggers = None →
  (∀ uid, project_faults p (DeleteTrigger uid) = None) →
  project_faults p (NewTrigger "onOpenWithFullPermissions" ON_OPEN) = Some message →
  triggers_wf s →
  ∃ s', Project.createInstallableTrigger p s = (Thrown message, s')
  ∧ project_triggers s'
    = filter (λ t, trigger_handler t ≠ "onOpenWithFullPermissions") (project_triggers s)
  ∧ stores s'
    = record_console (ConsoleError ("Error creating installable trigger: " +:+ message))
        (stores s).
Proof.
  intros Hlist Hdelete Hnew Hwf. unfold Project.createInstallableTrigger, app_try_catch.
  unfold app_bind at 1. rewrite getProjectTriggers_ok by done.
  unfold app_bind at 1. rewrite delete_handler_loop by done.
  unfold app_bind at 1, ScriptApp.newTrigger.
  unfold app_bind at 1. rewrite (project_call_refused _ _ _ message) by done.
  unfold app_bind at 1. rewrite lift_eq. cbn [fst snd]. unfold app_throw.
  eexists. split; [reflexivity|]. sess.
  by rewrite (delete_selected (λ t, trigger_handler t = "onOpenWithFullPermissions")) by apply Hwf.
Qed.

Lemma createInstallableTrigger_refused_after_deleting_witness :
  project_faults quota_platform GetProjectTriggers = None
  ∧ (∀ uid, project_faults quota_platform (DeleteTrigger uid) = None)
  ∧ project_faults quota_platform (NewTrigger "onOpenWithFullPermissions" ON_OPEN)
    = Some "This script has too many triggers."
  ∧ triggers_wf (session_of (world_of [header] [] []) true sample_triggers [])
  ∧ (Project.createInstallableTrigger quota_platform
       (session_of (world_of [header] [] []) true sample_triggers [])).1
    = Thrown "This script has too many triggers."
  ∧ trigger_handler <$> project_triggers
      (Project.createInstallableTrigger quota_platform
         (session_of (world_of [header] [] []) true sample_triggers [])).2
    = ["onEditTrigger"; "auditEdits"].
Proof.
  split; [done|]. split; [done|]. split; [done|]. split; [apply sample_triggers_wf|].
  destruct (createInstallableTrigger_refused_after_deleting quota_platform
              (session_of (world_of [header] [] []) true sample_triggers [])
              "This script has too many triggers." eq_refl (λ _, eq_refl) eq_refl
              (sample_triggers_wf _ _ _)) as (s' & Hrun & Hts & _).
  rewrite Hrun. cbn [fst snd]. rewrite Hts. split; reflexivity.
Defined.

(** ** toggleEditTrigger *)

Lemma is_on_edit_true t : Project.is_on_edit t = true ↔ trigger_event t = ON_EDIT.
Proof. unfold Project.is_on_edit. by destruct (trigger_event t). Qed.

Lemma existsb_is_on_edit l :
  existsb Project.is_on_edit l = true ↔ ∃ t, t ∈ l ∧ trigger_event t = ON_EDIT.
Proof.
  rewrite existsb_exists. split; intros (t & Ht & Hev); exists t.
  - by rewrite list_elem_of_In, <- is_on_edit_true.
  - by rewrite <- list_elem_of_In, is_on_edit_true.
Qed.

Lemma is_edit_trigger_on_edit t :
  Project.is_edit_trigger t = true → trigger_event t = ON_EDIT.
Proof. unfold Project.is_edit_trigger. by destruct (trigger_event t). Qed.

Lemma filter_all {A} (P : A → Prop) `{!∀ x, Decision (P x)} (l : list A) :
  (∀ x, x ∈ l → P x) → filter P l = l.
Proof.
  induction l as [|a l IH]; intros Hall; [done|].
  rewrite filter_cons_True by (apply Hall, list_elem_of_here).
  rewrite IH; [done|]. intros x Hx. by apply Hall, list_elem_of_further.
Qed.

(** X18. [toggleEditTrigger] switches on the presence of any edit trigger,
    whatever its handler.  When the project refuses no call and the
    triggers carry distinct identifiers: if the project has no edit trigger,
    one is created for [onEditTrigger] after the existing triggers; if it
    has edit triggers, all of them are deleted, those of other handlers
    too, and the other triggers stay in their order.  The menu is then
    rebuilt from the new triggers: its first item reads [ON] exactly when
    there was no edit trigger before.  The user properties are not
    changed. *)
Theorem toggleEditTrigger_flips (p : Platform) (s : Session) :
  project_ok p →
  triggers_wf s →
  ∃ s', Project.toggleEditTrigger p s = (Normal tt, s')
  ∧ ((∀ t, t ∈ project_triggers s → trigger_event t ≠ ON_EDIT) →
       project_triggers s'
       = project_triggers s
         ++ [{| trigger_uid := next_trigger s; trigger_handler := "onEditTrigger";
                trigger_event := ON_EDIT |}])
  ∧ ((∃ t, t ∈ project_triggers s ∧ trigger_event t = ON_EDIT) →
       project_triggers s'
       = filter (λ t, trigger_event t ≠ ON_EDIT) (project_triggers s))
  ∧ triggers_wf s'
  ∧ menus s' !! "Gmail Labels" = Some (full_menu s')
  ∧ (existsb Project.is_edit_trigger (project_triggers s') = true
     ↔ ∀ t, t ∈ project_triggers s → trigger_event t ≠ ON_EDIT)
  ∧ user_properties s' = user_properties s.
Proof.
  intros Hok Hwf. unfold Project.toggleEditTrigger.
  unfold app_bind at 1. rewrite getProjectTriggers_ok by done.
  unfold app_bind at 1. rewrite delete_on_edit_loop by (intros; apply Hok).
  cbn [orb].
  pose proof (delete_selected (λ t, Project.is_on_edit t = true)
                (project_triggers s) (proj1 Hwf)) as Hleft.
  cbv beta in Hleft.
  assert (filter (λ t, ¬ Project.is_on_edit t = true) (project_triggers s)
          = filter (λ t, trigger_event t ≠ ON_EDIT) (project_triggers s)) as Hfilter.
  { apply list_filter_iff. intros t. by rewrite is_on_edit_true. }
  rewrite Hfilter in Hleft. clear Hfilter.
  destruct (existsb Project.is_on_edit (project_triggers s)) eqn:Hex; cbn [negb].
  - (* some edit trigger: all of them are deleted *)
    apply existsb_is_on_edit in Hex as Hsome.
    unfold app_bind at 1. rewrite lift_eq, toast_eq. cbn [fst snd].
    match goal with |- context [Project.onOpenWithFullPermissions p ?s1] =>
      destruct (onOpenWithFullPermissions_refreshes p s1 Hok) as [w ->] end.
    eexists. split; [reflexivity|]. sess.
    split; [|split; [by rewrite Hleft|split; [|split; [|split; [|done]]]]].
    + intros Hnone. destruct Hsome as (t & Ht & Hev). by destruct (Hnone t Ht).
    + eapply (triggers_wf_filter (λ t, trigger_event t ≠ ON_EDIT)); [exact Hwf| |];
        sess; [by rewrite Hleft|done].
    + rewrite lookup_insert_eq. unfold full_menu, stored_flag. sess. by rewrite Hleft.
    + rewrite Hleft. split.
      * intros (t & [Hev _]%list_elem_of_In%list_elem_of_filter & Ht)%existsb_exists.
        by apply is_edit_trigger_on_edit in Ht.
      * intros Hnone. destruct Hsome as (t & Ht & Hev). by destruct (Hnone t Ht).
  - (* no edit trigger: one is created *)
    assert (∀ t, t ∈ project_triggers s → trigger_event t ≠ ON_EDIT) as Hnone.
    { intros t Ht Hev.
      assert (existsb Project.is_on_edit (project_triggers s) = true) as Hyes
        by (apply existsb_is_on_edit; by exists t).
      congruence. }
    rewrite (filter_all _ _ Hnone) in Hleft.
    unfold app_bind at 1. unfold app_bind at 1. rewrite newTrigger_ok by done.
    rewrite lift_eq, toast_eq. cbn [fst snd].
    match goal with |- context [Project.onOpenWithFullPermissions p ?s1] =>
      destruct (onOpenWithFullPermissions_refreshes p s1 Hok) as [w ->] end.
    eexists. split; [reflexivity|]. sess.
    split; [by rewrite Hleft|]. split; [|split; [|split; [|split; [|done]]]].
    + intros (t & Ht & Hev). by destruct (Hnone t Ht).
    + eapply (triggers_wf_snoc (λ t, trigger_event t ≠ ON_EDIT)); [exact Hwf| |];
        sess; [|done].
      by rewrite Hleft, (filter_all _ _ Hnone).
    + rewrite lookup_insert_eq. unfold full_menu, stored_flag. sess. by rewrite Hleft.
    + rewrite Hleft. split; [done|]. intros _. rewrite existsb_app. simpl. apply orb_true_r.
Qed.

Lemma toggleEditTrigger_flips_witness :
  project_ok nominal_platform
  ∧ triggers_wf (session_of (world_of [header] [] []) true sample_triggers [])
  ∧ project_triggers
      (Project.toggleEditTrigger nominal_platform
         (session_of (world_of [header] [] []) true sample_triggers [])).2
    = [{| trigger_uid := 1; trigger_handler := "onOpenWithFullPermissions";
          trigger_event := ON_OPEN |}].
Proof.
  split; [by intros c|]. split; [apply sample_triggers_wf|].
  destruct (toggleEditTrigger_flips nominal_platform
              (session_of (world_of [header] [] []) true sample_triggers [])
              (λ _, eq_refl) (sample_triggers_wf _ _ _)) as (s' & Hrun & _ & Hsome & _).
  rewrite Hrun. cbn [snd]. rewrite Hsome; [reflexivity|].
  exists {| trigger_uid := 2; trigger_handler := "onEditTrigger"; trigger_event := ON_EDIT |}.
  split; [|done]. apply list_elem_of_further, list_elem_of_here.
Defined.

(** * The auto-sync setting *)

Lemma stored_flag_insert v s :
  stored_flag (set_properties (insert "autoSyncEnabled" v) s) = bool_decide (v = "true").
Proof.
  unfold stored_flag. sess. rewrite lookup_insert_eq.
  apply bool_decide_ext. split; [by intros [= ->]|by intros ->].
Qed.

(** X19. [toggleAutoSync] flips the stored setting.  When the project
    refuses no call, the user property [autoSyncEnabled] becomes the text
    [false] if it held exactly [true] and the text [true] otherwise, also
    when it was missing or held anything else; the setting read back is
    the negation of the setting read before; the other properties and the
    triggers are as they were; and the menu is rebuilt from the new
    setting. *)
Theorem toggleAutoSync_flips (p : Platform) (s : Session) :
  project_ok p →
  ∃ s', Project.toggleAutoSync p s = (Normal tt, s')
  ∧ user_properties s'
    = <["autoSyncEnabled" := if stored_flag s then "false" else "true"]> (user_properties s)
  ∧ (Project.getAutoSyncEnabled p s').1 = Normal (negb (stored_flag s))
  ∧ project_triggers s' = project_triggers s
  ∧ menus s' !! "Gmail Labels" = Some (full_menu s').
Proof.
  intros Hok. unfold Project.toggleAutoSync.
  unfold app_bind at 1. rewrite getAutoSyncEnabled_ok by done.
  unfold app_bind at 1. rewrite setProperty_ok by done.
  unfold app_bind at 1. rewrite lift_eq, toast_eq. cbn [fst snd].
  match goal with |- context [Project.onOpenWithFullPermissions p ?s1] =>
    destruct (onOpenWithFullPermissions_refreshes p s1 Hok) as [w ->] end.
  eexists. split; [reflexivity|]. sess.
  split; [by destruct (stored_flag s)|]. split; [|split; [done|]].
  - rewrite getAutoSyncEnabled_ok by done. cbn [fst]. f_equal.
    change (stored_flag (set_stores ?f (set_menus ?g (set_stores ?h ?s0))))
      with (stored_flag s0).
    rewrite stored_flag_insert. by destruct (stored_flag s).
  - by rewrite lookup_insert_eq.
Qed.

Lemma toggleAutoSync_flips_witness :
  project_ok nominal_platform
  ∧ user_properties
      (Project.toggleAutoSync nominal_platform
         (session_of (world_of [header] [] []) true [] [("autoSyncEnabled", "yes")])).2
    !! "autoSyncEnabled" = Some "true".
Proof.
  split; [by intros c|].
  destruct (toggleAutoSync_flips nominal_platform
              (session_of (world_of [header] [] []) true [] [("autoSyncEnabled", "yes")])
              (λ _, eq_refl)) as (s' & Hrun & Hprops & _).
  rewrite Hrun. cbn [snd]. rewrite Hprops. by rewrite lookup_insert_eq.
Defined.

(** X20. Switching the setting also runs [onOpenWithFullPermissions] with
    the new setting.  When the project refuses no call and the sheet
    exists, the two stores after [toggleAutoSync] are those that the
    auto-sync part of [onOpenWithFullPermissions] leaves when it runs with
    the negated setting on the stores that carry the toast of the toggle:
    enabling the setting reconciles the stores at once. *)
Theorem toggleAutoSync_runs_the_refresh (p : Platform) (s : Session) :
  project_ok p →
  has_labels_sheet s = true →
  stores (Project.toggleAutoSync p s).2
  = (onOpenWithFullPermissions
       {| faults := gmail_faults p; list_payload := gmail_payload p;
          autoSyncEnabled := negb (stored_flag s) |}
       (record_toast {| toast_message := "Auto Sync " +:+ (if stored_flag s then "DISABLED"
                                                              else "ENABLED");
                        toast_title := None; toast_timeout := None |}
          (stores s))).2.
Proof.
  intros Hok Hsheet. unfold Project.toggleAutoSync.
  unfold app_bind at 1. rewrite getAutoSyncEnabled_ok by done.
  unfold app_bind at 1. rewrite setProperty_ok by done.
  unfold app_bind at 1. rewrite lift_eq, toast_eq. cbn [fst snd].
  rewrite onOpenWithFullPermissions_ok by done. cbn [snd]. sess.
  unfold host_of. change (stored_flag (set_stores ?h ?s0)) with (stored_flag s0).
  rewrite stored_flag_insert. by destruct (stored_flag s).
Qed.

Lemma toggleAutoSync_runs_the_refresh_witness :
  project_ok nominal_platform
  ∧ has_labels_sheet
      (session_of (world_of [header; ((2, NAME_COLUMN), "Work")] [] []) true [] []) = true
  ∧ label_name <$> labels (stores
      (Project.toggleAutoSync nominal_platform
         (session_of (world_of [header; ((2, NAME_COLUMN), "Work")] [] []) true [] [])).2)
    = ["Work"].
Proof.
  split; [by intros c|]. split; [reflexivity|].
  rewrite (toggleAutoSync_runs_the_refresh nominal_platform
             (session_of (world_of [header; ((2, NAME_COLUMN), "Work")] [] []) true [] [])
             (λ _, eq_refl) eq_refl).
  by vm_compute.
Defined.

(** * Opening the spreadsheet *)

(** ** The installable trigger *)

(** X21. Within the project, [onOpenWithFullPermissions] installs the menu
    and then does to the two stores what its auto-sync part does.  When
    the project refuses no call and the sheet exists: the call returns
    normally; the menu Gmail Labels holds the three items, the first two
    marked by the edit trigger of [onEditTrigger] and by the stored
    setting; the two stores are those left by the auto-sync part run with
    the stored setting; the triggers, the properties and the dialogs are
    untouched. *)
Theorem onOpenWithFullPermissions_menu_then_auto_sync (p : Platform) (s : Session) :
  project_ok p →
  has_labels_sheet s = true →
  ∃ s', Project.onOpenWithFullPermissions p s = (Normal tt, s')
  ∧ menus s' = <["Gmail Labels" := full_menu s]> (menus s)
  ∧ stores s' = (onOpenWithFullPermissions (host_of p s) (stores s)).2
  ∧ project_triggers s' = project_triggers s
  ∧ user_properties s' = user_properties s
  ∧ alerts s' = alerts s.
Proof.
  intros Hok Hsheet. rewrite onOpenWithFullPermissions_ok by done.
  eexists. split; [reflexivity|]. by sess.
Qed.

Lemma onOpenWithFullPermissions_menu_then_auto_sync_witness :
  project_ok nominal_platform
  ∧ has_labels_sheet
      (session_of (world_of [header; ((2, NAME_COLUMN), "Work")] [] []) true sample_triggers
         [("autoSyncEnabled", "true")]) = true
  ∧ item_caption <$> default [] (menus
      (Project.onOpenWithFullPermissions nominal_platform
         (session_of (world_of [header; ((2, NAME_COLUMN), "Work")] [] []) true sample_triggers
            [("autoSyncEnabled", "true")])).2 !! "Gmail Labels")
    = ["[ON] Trigger On Spreadsheet Change"; "[ON] Auto Sync On Startup"; "Sync All Labels"].
Proof.
  split; [by intros c|]. split; [reflexivity|].
  destruct (onOpenWithFullPermissions_menu_then_auto_sync nominal_platform
              (session_of (world_of [header; ((2, NAME_COLUMN), "Work")] [] []) true
                 sample_triggers [("autoSyncEnabled", "true")])
              (λ _, eq_refl) eq_refl) as (s' & Hrun & Hmenu & _).
  rewrite Hrun. cbn [snd]. rewrite Hmenu, lookup_insert_eq. reflexivity.
Defined.

(** X22. The auto sync on a spreadsheet without the sheet.  When the
    project refuses no call, the setting is on and the spreadsheet has no
    sheet of the configured name, [onOpenWithFullPermissions] still
    installs the menu and returns normally; the pass stops on its first
    line, so nothing is listed or created in Gmail and no cell is written:
    the two stores only gain the error line, the failure toast and the
    closing debug line. *)
Theorem auto_sync_without_sheet (p : Platform) (s : Session) :
  project_ok p →
  has_labels_sheet s = false →
  stored_flag s = true →
  ∃ s', Project.onOpenWithFullPermissions p s = (Normal tt, s')
  ∧ menus s' !! "Gmail Labels" = Some (full_menu s)
  ∧ stores s'
    = record_console (ConsoleLog "[DEBUG] Full permissions menu created successfully")
        (record_toast {| toast_message := "Auto sync failed - check logs";
                         toast_title := Some "Error"; toast_timeout := Some 6 |}
           (record_console
              (ConsoleError "[ERROR] Auto sync failed: Cannot read properties of null (reading 'getLastRow')")
              (stores s))).
Proof.
  intros Hok Hsheet Hflag. rewrite onOpenWithFullPermissions_without_sheet by done.
  eexists. split; [reflexivity|]. sess. rewrite Hflag, lookup_insert_eq. done.
Qed.

Lemma auto_sync_without_sheet_witness :
  project_ok nominal_platform
  ∧ has_labels_sheet (session_of (world_of [] [] []) false [] [("autoSyncEnabled", "true")])
    = false
  ∧ stored_flag (session_of (world_of [] [] []) false [] [("autoSyncEnabled", "true")]) = true
  ∧ calls (stores
      (Project.onOpenWithFullPermissions nominal_platform
         (session_of (world_of [] [] []) false [] [("autoSyncEnabled", "true")])).2) = [].
Proof.
  split; [by intros c|]. split; [reflexivity|]. split; [reflexivity|].
  destruct (auto_sync_without_sheet nominal_platform
              (session_of (world_of [] [] []) false [] [("autoSyncEnabled", "true")])
              (λ _, eq_refl) eq_refl eq_refl) as (s' & Hrun & _ & Hstores).
  rewrite Hrun. cbn [snd]. rewrite Hstores. reflexivity.
Defined.

(** ** What the open handlers catch *)

Lemma app_try_catch_caught (body : App unit) (handler : string → App unit) p s :
  (∀ message s1, (handler message p s1).1 = Normal tt) →
  (app_try_catch body handler p s).1 = Normal tt.
Proof.
  intros Hhandler. unfold app_try_catch.
  destruct (body p s) as [[[]|message] s1]; [done|apply Hhandler].
Qed.

Lemma lift_console_error_normal text p s : (lift (console_error text) p s).1 = Normal tt.
Proof. by rewrite lift_eq. Qed.

Lemma after_getUi {A} (k : App A) p s :
  (run SpreadsheetApp.getUi; k)%app p s
  = match project_faults p GetUi with
    | Some message => (Thrown message, s)
    | None => k p s
    end.
Proof.
  unfold app_bind, SpreadsheetApp.getUi, project_call. by destruct (project_faults p GetUi).
Qed.

(** X23. The two open handlers raise exactly when the spreadsheet has no
    user interface to offer.  [SpreadsheetApp.getUi()] is called before
    the [try]: when it raises, [onOpen] and [onOpenWithFullPermissions]
    raise its error and change nothing; when it does not, they return
    normally, whatever else the project, the sheet or Gmail refuse. *)
Theorem open_handlers_raise_only_without_ui (p : Platform) (s : Session) :
  match project_faults p GetUi with
  | Some message =>
      Project.onOpen p s = (Thrown message, s)
      ∧ Project.onOpenWithFullPermissions p s = (Thrown message, s)
  | None =>
      (Project.onOpen p s).1 = Normal tt
      ∧ (Project.onOpenWithFullPermissions p s).1 = Normal tt
  end.
Proof.
  unfold Project.onOpen, Project.onOpenWithFullPermissions.
  rewrite !after_getUi.
  destruct (project_faults p GetUi) as [message|]; [done|].
  split; apply app_try_catch_caught; intros; apply lift_console_error_normal.
Qed.

(** X24. Without authorisation the installable handler builds no menu and
    runs no sync.  When the user interface is available but the project
    refuses to list its triggers, [onOpenWithFullPermissions] returns
    normally and its only effect is the line it writes with
    [console.error]: the menu, the two stores apart from that line, the
    triggers and the properties are as before, also when the auto-sync
    setting is on. *)
Theorem onOpenWithFullPermissions_unauthorised (p : Platform) (s : Session) (message : string) :
  project_faults p GetUi = None →
  project_faults p GetProjectTriggers = Some message →
  Project.onOpenWithFullPermissions p s
  = (Normal tt,
     set_stores (record_console
                   (ConsoleError ("Error in onOpenWithFullPermissions: " +:+ message))) s).
Proof.
  intros Hui Hlist. unfold Project.onOpenWithFullPermissions.
  unfold app_bind at 1. rewrite getUi_ok by done.
  unfold app_try_catch. unfold app_bind at 1.
  unfold ScriptApp.getProjectTriggers. unfold app_bind at 1.
  rewrite (project_call_refused _ _ _ message) by done.
  by rewrite lift_eq.
Qed.

Lemma onOpenWithFullPermissions_unauthorised_witness :
  project_faults unauthorised_platform GetUi = None
  ∧ project_faults unauthorised_platform GetProjectTriggers
    = Some "Authorisation is required to perform that action."
  ∧ menus (Project.onOpenWithFullPermissions unauthorised_platform
             (session_of (world_of [header; ((2, NAME_COLUMN), "Work")] [] []) true []
                [("autoSyncEnabled", "true")])).2 = ∅
  ∧ labels (stores (Project.onOpenWithFullPermissions unauthorised_platform
             (session_of (world_of [header; ((2, NAME_COLUMN), "Work")] [] []) true []
                [("autoSyncEnabled", "true")])).2) = [].
Proof.
  split; [reflexivity|]. split; [reflexivity|].
  rewrite (onOpenWithFullPermissions_unauthorised unauthorised_platform
             (session_of (world_of [header; ((2, NAME_COLUMN), "Work")] [] []) true []
                [("autoSyncEnabled", "true")])
             "Authorisation is required to perform that action." eq_refl eq_refl).
  split; reflexivity.
Defined.

(** ** The auto sync never shows a result *)

(** X25. With the setting on, every run of the auto-sync part ends in the
    failure report, on every host and for all contents of the two stores.
    [syncAllLabels] either raises or returns [undefined], on which
    [showSyncResults] raises, so the handler always runs: the two stores
    afterwards are those that [syncAllLabels] left, followed by the error
    line, the toast that asks to check the logs and the closing debug
    line.  No summary of the pass is ever shown. *)
Theorem auto_sync_always_reports_failure (h : Host) (w : World) :
  autoSyncEnabled h = true →
  ∃ message,
    onOpenWithFullPermissions h w
    = (Normal tt,
       record_console (ConsoleLog "[DEBUG] Full permissions menu created successfully")
         (record_toast {| toast_message := "Auto sync failed - check logs";
                          toast_title := Some "Error"; toast_timeout := Some 6 |}
            (record_console (ConsoleError ("[ERROR] Auto sync failed: " +:+ message))
               (syncAllLabels h w).2))).
Proof.
  intros Hflag. pose proof (syncAllLabels_yields_undefined h w) as Hundef.
  unfold onOpenWithFullPermissions, try_catch, getAutoSyncEnabled.
  unfold bind at 1. rewrite Hflag. cbn [when].
  unfold bind at 1. unfold bind at 1.
  destruct (syncAllLabels h w) as [[r|message] w1]; cbn [fst snd] in *.
  - subst r. cbn [showSyncResults]. unfold throw, bind.
    rewrite logError_eq, toast_eq, logDebug_eq. by eexists.
  - unfold bind. rewrite logError_eq, toast_eq, logDebug_eq. by eexists.
Qed.

Lemma auto_sync_always_reports_failure_witness :
  autoSyncEnabled nominal_host = true
  ∧ toast_message <$> toasts (onOpenWithFullPermissions nominal_host world_mixed).2
    = ["All labels synced bidirectionally between Gmail and spreadsheet";
       "Auto sync failed - check logs"].
Proof.
  split; [reflexivity|].
  destruct (auto_sync_always_reports_failure nominal_host world_mixed eq_refl)
    as [message Hrun].
  rewrite Hrun. reflexivity.
Defined.

(** ** The simple trigger *)

Lemma setupLabelIdColumn_eq p s :
  Project.setupLabelIdColumn p s
  = (Normal tt,
     if has_labels_sheet s then
       match project_faults p (HideColumns LABEL_ID_COLUMN) with
       | None =>
           set_stores (λ w,
             record_console (ConsoleLog "[DEBUG] Label ID column hidden successfully")
               (set_sheet (insert (HEADER_ROW, LABEL_ID_COLUMN) "Label ID") w))
             (record_hidden LABEL_ID_COLUMN s)
       | Some message =>
           set_stores (λ w,
             record_console
               (ConsoleError ("[ERROR] Failed to hide Label ID column: " +:+ message))
               (set_sheet (insert (HEADER_ROW, LABEL_ID_COLUMN) "Label ID") w)) s
       end
     else s).
Proof.
  unfold Project.setupLabelIdColumn, app_try_catch.
  unfold app_bind at 1, SpreadsheetApp.getSheetByName, app_inspect. rewrite String.eqb_refl. cbn [andb].
  destruct (has_labels_sheet s) eqn:Hsheet; cbn [negb]; [|done].
  unfold app_bind at 1. rewrite lift_eq, setValue_eq. cbn [fst snd].
  unfold SpreadsheetApp.hideColumns. unfold app_bind at 1. unfold app_bind at 1.
  unfold project_call.
  destruct (project_faults p (HideColumns LABEL_ID_COLUMN)) as [message|].
  - by rewrite lift_eq, logError_eq.
  - unfold app_modify. by rewrite lift_eq, logDebug_eq.
Qed.

(** X26. [setupLabelIdColumn] never raises and only touches the header
    cell and the hidden columns.  Without the sheet it changes nothing.
    With the sheet it writes Label ID into the header cell of the id
    column, over whatever the cell held, and hides that column; when the
    spreadsheet refuses to hide the column the header is still written and
    the column stays visible.  Gmail, the triggers, the properties and the
    menus are never touched. *)
Theorem setupLabelIdColumn_writes_the_header (p : Platform) (s : Session) :
  ∃ s', Project.setupLabelIdColumn p s = (Normal tt, s')
  ∧ (has_labels_sheet s = false → s' = s)
  ∧ (has_labels_sheet s = true →
       sheet (stores s')
       = <[(HEADER_ROW, LABEL_ID_COLUMN) := "Label ID"]> (sheet (stores s))
       ∧ hidden_columns s'
         = match project_faults p (HideColumns LABEL_ID_COLUMN) with
           | None => hidden_columns s ++ [LABEL_ID_COLUMN]
           | Some _ => hidden_columns s
           end)
  ∧ labels (stores s') = labels (stores s)
  ∧ threads (stores s') = threads (stores s)
  ∧ calls (stores s') = calls (stores s)
  ∧ project_triggers s' = project_triggers s
  ∧ user_properties s' = user_properties s
  ∧ menus s' = menus s.
Proof.
  rewrite setupLabelIdColumn_eq. eexists. split; [reflexivity|].
  destruct (has_labels_sheet s); [|by repeat split].
  split; [done|].
  destruct (project_faults p (HideColumns LABEL_ID_COLUMN)); by repeat split.
Qed.

(** X27. [onOpen], the simple trigger, installs the one-item menu and
    leaves Gmail and the project alone.  When the user interface is
    available it returns normally; the menu Gmail Labels then holds the
    single item Click to Enable, unless the spreadsheet refuses the menu,
    in which case the menus are as before; the labels, the threads and the
    calls made to Gmail, the triggers and the properties are unchanged on
    every platform. *)
Theorem onOpen_installs_the_short_menu (p : Platform) (s : Session) :
  project_faults p GetUi = None →
  ∃ s', Project.onOpen p s = (Normal tt, s')
  ∧ menus s'
    = match project_faults p (AddToUi "Gmail Labels") with
      | None => <["Gmail Labels" := short_menu]> (menus s)
      | Some _ => menus s
      end
  ∧ labels (stores s') = labels (stores s)
  ∧ threads (stores s') = threads (stores s)
  ∧ calls (stores s') = calls (stores s)
  ∧ project_triggers s' = project_triggers s
  ∧ user_properties s' = user_properties s.
Proof.
  intros Hui. unfold Project.onOpen. rewrite after_getUi, Hui.
  unfold app_try_catch. unfold app_bind at 1. rewrite setupLabelIdColumn_eq.
  unfold SpreadsheetApp.addToUi. unfold app_bind at 1. unfold project_call, short_menu.
  destruct (project_faults p (AddToUi "Gmail Labels")) as [message|].
  - rewrite lift_eq. eexists. split; [reflexivity|].
    destruct (has_labels_sheet s); [|by repeat split].
    destruct (project_faults p (HideColumns LABEL_ID_COLUMN)); by repeat split.
  - unfold app_modify. eexists. split; [reflexivity|].
    destruct (has_labels_sheet s); [|by repeat split].
    destruct (project_faults p (HideColumns LABEL_ID_COLUMN)); by repeat split.
Qed.

Lemma onOpen_installs_the_short_menu_witness :
  project_faults unauthorised_platform GetUi = None
  ∧ item_function <$> default [] (menus
      (Project.onOpen unauthorised_platform
         (session_of (world_of [] [] []) true [] [])).2 !! "Gmail Labels")
    = ["promptForPermissions"].
Proof.
  split; [reflexivity|].
  destruct (onOpen_installs_the_short_menu unauthorised_platform
              (session_of (world_of [] [] []) true [] []) eq_refl) as (s' & Hrun & Hmenu & _).
  rewrite Hrun. cbn [snd]. rewrite Hmenu. reflexivity.
Defined.

(** * Asking for permissions *)


Lemma createInstallableTrigger_refused p s message :
  project_faults p GetProjectTriggers = None →
  (∀ uid, project_faults p (DeleteTrigger uid) = None) →
  project_faults p (NewTrigger "onOpenWithFullPermissions" ON_OPEN) = Some message →
  Project.createInstallableTrigger p s
  = (Thrown message,
     set_stores
       (record_console (ConsoleError ("Error creating installable trigger: " +:+ message)))
       (set_triggers (λ ts,
          delete_triggers
            (filter (λ t, trigger_handler t = "onOpenWithFullPermissions") ts) ts) s)).
Proof.
  intros Hlist Hdelete Hnew. unfold Project.createInstallableTrigger, app_try_catch.
  unfold app_bind at 1. rewrite getProjectTriggers_ok by done.
  unfold app_bind at 1. rewrite delete_handler_loop by done.
  unfold app_bind at 1, ScriptApp.newTrigger.
  unfold app_bind at 1. rewrite (project_call_refused _ _ _ message) by done.
  unfold app_bind at 1. by rewrite lift_eq.
Qed.

Lemma alert_ok title prompt buttons p s :
  project_faults p (ShowAlert title) = None →
  SpreadsheetApp.alert title prompt buttons p s
  = (Normal (answers p {| alert_title := title; alert_prompt := prompt;
                          alert_buttons := buttons |}),
     record_alert {| alert_title := title; alert_prompt := prompt;
                     alert_buttons := buttons |} s).
Proof.
  intros Hok. unfold SpreadsheetApp.alert. unfold app_bind at 1. rewrite project_call_ok by done.
  by unfold app_bind, app_modify.
Qed.



(** X29. A refusal to create the trigger ends in the Error dialog.  When
    the user presses OK and the project lists and deletes triggers but
    refuses to create one, [promptForPermissions] returns normally after a
    second dialog titled Error that quotes the message of the refusal;
    [onOpenWithFullPermissions] is not run, so the menus are as before;
    and the earlier open triggers of [onOpenWithFullPermissions] have been
    deleted. *)
Theorem promptForPermissions_reports_refusal (p : Platform) (s : Session) (message : string) :
  project_faults p GetUi = None →
  (∀ title, project_faults p (ShowAlert title) = None) →
  project_faults p GetProjectTriggers = None →
  (∀ uid, project_faults p (DeleteTrigger uid) = None) →
  project_faults p (NewTrigger "onOpenWithFullPermissions" ON_OPEN) = Some message →
  answers p permission_prompt = OK →
  triggers_wf s →
  ∃ s', Project.promptForPermissions p s = (Normal tt, s')
  ∧ alerts s'
    = alerts s
      ++ [permission_prompt;
          {| alert_title := "Error";
             alert_prompt := "Unable to enable permissions: " +:+ message
                             +:+ newline +:+ newline
                             +:+ "Please try refreshing the page and trying again.";
             alert_buttons := BUTTONS_OK |}]
  ∧ menus s' = menus s
  ∧ project_triggers s'
    = filter (λ t, trigger_handler t ≠ "onOpenWithFullPermissions") (project_triggers s).
Proof.
  intros Hui Halert Hlist Hdelete Hnew Hanswer Hwf. unfold Project.promptForPermissions.
  rewrite after_getUi, Hui. unfold app_bind at 1. rewrite alert_ok by done.
  fold permission_prompt. rewrite Hanswer.
  unfold app_try_catch at 1. unfold app_bind at 1.
  rewrite (createInstallableTrigger_refused _ _ message) by done.
  unfold app_bind at 1. rewrite alert_ok by done. unfold app_ret.
  eexists. split; [reflexivity|]. sess.
  pose proof (delete_selected (λ t, trigger_handler t = "onOpenWithFullPermissions")
                (project_triggers s) (proj1 Hwf)) as Hleft.
  split; [by rewrite <- app_assoc|]. split; [done|]. by rewrite Hleft.
Qed.

Lemma promptForPermissions_reports_refusal_witness :
  project_faults quota_platform GetUi = None
  ∧ (∀ title, project_faults quota_platform (ShowAlert title) = None)
  ∧ project_faults quota_platform GetProjectTriggers = None
  ∧ (∀ uid, project_faults quota_platform (DeleteTrigger uid) = None)
  ∧ project_faults quota_platform (NewTrigger "onOpenWithFullPermissions" ON_OPEN)
    = Some "This script has too many triggers."
  ∧ answers quota_platform permission_prompt = OK
  ∧ triggers_wf (session_of (world_of [header] [] []) true sample_triggers [])
  ∧ alert_title <$> alerts
      (Project.promptForPermissions quota_platform
         (session_of (world_of [header] [] []) true sample_triggers [])).2
    = ["Additional Permissions Required"; "Error"].
Proof.
  split; [reflexivity|]. split; [done|]. split; [reflexivity|]. split; [done|].
  split; [reflexivity|]. split; [reflexivity|]. split; [apply sample_triggers_wf|].
  destruct (promptForPermissions_reports_refusal quota_platform
              (session_of (world_of [header] [] []) true sample_triggers [])
              "This script has too many triggers." eq_refl (λ _, eq_refl) eq_refl
              (λ _, eq_refl) eq_refl eq_refl (sample_triggers_wf _ _ _))
    as (s' & Hrun & Halerts & _).
  rewrite Hrun. cbn [snd]. rewrite Halerts. reflexivity.
Defined.
